(** * Speed-curve input processor: model and properties

    A shallow embedding of [src/speed_curve.c] (with the structures of
    [zmk/input_processors/speed_curve.h]) and the properties of the
    processor that the specification states.

    Conventions of the embedding.
    - C integers are [Z]; every signed operation of width [w] is followed by
      its two's-complement wrap-around ([CInt.int32], [CInt.int64]), the
      convention of CompCert for signed arithmetic.  Integer division is
      [Z.quot] (truncation toward zero).
    - Arrays are lists; [a[i]] is [nth i a 0].  Every read the code performs is
      in bounds (the indices are derived from the array length).
    - The handler mutates [dev->data] and [*event] and calls [k_uptime_get()]
      up to two times; the model passes the data and the event in and out and
      takes the two clock readings as an input.
    - [LOG_DBG] lines are collected, in order, in the outcome. *)

From Stdlib Require Import ZArith List Bool Lia.
Import ListNotations.
Local Open Scope Z_scope.

(* ------------------------------------------------------------------ *)
(** ** Machine integers *)

Module CInt.

(** Two's-complement wrap-around of a signed [w]-bit integer. *)
Definition wrap (w : Z) (z : Z) : Z :=
  (z + 2 ^ (w - 1)) mod 2 ^ w - 2 ^ (w - 1).

Definition int32 (z : Z) : Z := wrap 32 z.
Definition int64 (z : Z) : Z := wrap 64 z.

(** Representable values. *)
Definition in_int32 (z : Z) : Prop := - 2 ^ 31 <= z < 2 ^ 31.
Definition in_int64 (z : Z) : Prop := - 2 ^ 63 <= z < 2 ^ 63.

Definition in_int32b (z : Z) : bool := (- 2 ^ 31 <=? z) && (z <? 2 ^ 31).

(** Conversion to an unsigned [w]-bit integer. *)
Definition uint8 (z : Z) : Z := z mod 2 ^ 8.
Definition uint16 (z : Z) : Z := z mod 2 ^ 16.

End CInt.

Import CInt.

(* ------------------------------------------------------------------ *)
(** ** Data model *)

(** [struct zip_speed_curve_config].  [codes_len] and [curve_points_len] are
    the lengths of the two arrays (the instantiation macro sets them with
    [DT_INST_PROP_LEN]); [curve_points] is the flattened array
    [time0, speed0, time1, speed1, ...]. *)
Record zip_speed_curve_config : Type := {
  type : Z;                    (* uint8_t *)
  codes : list Z;              (* const uint16_t *, codes_len *)
  curve_points : list Z;       (* const int32_t *, curve_points_len *)
  trigger_period_ms : Z;       (* uint16_t *)
  track_remainders : bool
}.

Definition codes_len (cfg : zip_speed_curve_config) : nat :=
  length (codes cfg).
Definition curve_points_len (cfg : zip_speed_curve_config) : nat :=
  length (curve_points cfg).

(** [struct zip_speed_curve_data].  The handler reads and writes [is_active],
    [start_time] and the two last directions.  The header of this snapshot
    declares [x_start_time], [y_start_time], [x_remainder] and [y_remainder]
    instead of [is_active] and [start_time]; no function accesses those four,
    and the record carries them so that frame properties range over every
    declared field.  The two [float] remainders are kept as their 32-bit
    patterns. *)
Record zip_speed_curve_data : Type := {
  is_active : bool;
  start_time : Z;              (* int64_t *)
  x_start_time : Z;            (* int64_t, never accessed *)
  y_start_time : Z;            (* int64_t, never accessed *)
  last_x_direction : Z;        (* int8_t: -1, 0, 1 *)
  last_y_direction : Z;        (* int8_t: -1, 0, 1 *)
  x_remainder : Z;             (* float, never accessed *)
  y_remainder : Z              (* float, never accessed *)
}.

(** The fields of Zephyr's [struct input_event] that the handler uses. *)
Record input_event : Type := {
  event_type : Z;              (* uint8_t type *)
  code : Z;                    (* uint16_t *)
  value : Z                    (* int32_t *)
}.

(** The two readings of [k_uptime_get()] inside one call of the handler: the
    one stored in [start_time] when timing is (re)started, and the one taken
    as [current_time]. *)
Record uptime : Type := {
  now_start : Z;
  now_current : Z
}.

(** The debug log lines of the handler, with their arguments. *)
Inductive log_msg : Type :=
| LogMovementStopped
| LogDirectionChanged
| LogMovementStarted (start : Z)
| LogSpeedCurve (elapsed speed movement original : Z).

(** What one call of the handler leaves behind. *)
Record outcome : Type := {
  ret : Z;
  data_out : zip_speed_curve_data;
  event_out : input_event;
  log : list log_msg
}.

(** Field updates of the runtime data. *)
Definition set_is_active (b : bool) (d : zip_speed_curve_data) :=
  {| is_active := b; start_time := start_time d;
     x_start_time := x_start_time d; y_start_time := y_start_time d;
     last_x_direction := last_x_direction d;
     last_y_direction := last_y_direction d;
     x_remainder := x_remainder d; y_remainder := y_remainder d |}.

Definition set_start_time (t : Z) (d : zip_speed_curve_data) :=
  {| is_active := is_active d; start_time := t;
     x_start_time := x_start_time d; y_start_time := y_start_time d;
     last_x_direction := last_x_direction d;
     last_y_direction := last_y_direction d;
     x_remainder := x_remainder d; y_remainder := y_remainder d |}.

Definition set_last_x_direction (v : Z) (d : zip_speed_curve_data) :=
  {| is_active := is_active d; start_time := start_time d;
     x_start_time := x_start_time d; y_start_time := y_start_time d;
     last_x_direction := v;
     last_y_direction := last_y_direction d;
     x_remainder := x_remainder d; y_remainder := y_remainder d |}.

Definition set_last_y_direction (v : Z) (d : zip_speed_curve_data) :=
  {| is_active := is_active d; start_time := start_time d;
     x_start_time := x_start_time d; y_start_time := y_start_time d;
     last_x_direction := last_x_direction d;
     last_y_direction := v;
     x_remainder := x_remainder d; y_remainder := y_remainder d |}.

(** [int8_t *last_direction = is_x_axis ? &data->last_x_direction
                                        : &data->last_y_direction]:
    reading and writing through the selected pointer. *)
Definition last_direction (is_x_axis : bool) (d : zip_speed_curve_data) : Z :=
  if is_x_axis then last_x_direction d else last_y_direction d.

Definition set_last_direction (is_x_axis : bool) (v : Z)
    (d : zip_speed_curve_data) : zip_speed_curve_data :=
  if is_x_axis then set_last_x_direction v d else set_last_y_direction v d.

Definition set_value (v : Z) (e : input_event) : input_event :=
  {| event_type := event_type e; code := code e; value := v |}.

(* ------------------------------------------------------------------ *)
(** ** The functions of speed_curve.c *)

(** [code_matches]: linear search with early return. *)
Fixpoint code_matches_from (cs : list Z) (c : Z) : bool :=
  match cs with
  | [] => false
  | c0 :: rest => if c0 =? c then true else code_matches_from rest c
  end.

Definition code_matches (cfg : zip_speed_curve_config) (c : Z) : bool :=
  code_matches_from (codes cfg) c.

(** [cfg->curve_points[k]]. *)
Definition curve_point (cfg : zip_speed_curve_config) (k : nat) : Z :=
  nth k (curve_points cfg) 0.

Definition num_points (cfg : zip_speed_curve_config) : nat :=
  (curve_points_len cfg / 2)%nat.

(** The body of the interpolation branch, for the segment that starts at
    point [i]. *)
Definition interpolate (cfg : zip_speed_curve_config) (elapsed_ms : Z)
    (i : nat) : Z :=
  let t0 := curve_point cfg (i * 2) in
  let s0 := curve_point cfg (i * 2 + 1) in
  let t1 := curve_point cfg ((i + 1) * 2) in
  let s1 := curve_point cfg ((i + 1) * 2 + 1) in
  let time_delta := int32 (t1 - t0) in
  let speed_delta := int32 (s1 - s0) in
  let elapsed_in_segment := int64 (elapsed_ms - t0) in
  int32 (int64 (s0 + int64 (Z.quot (int64 (speed_delta * elapsed_in_segment))
                                   time_delta))).

(** The [for] loop of [calculate_speed], started at index [i] with [n]
    iterations left; [None] when the loop runs to its end without a
    [return]. *)
Fixpoint segment_loop (cfg : zip_speed_curve_config) (elapsed_ms : Z)
    (i n : nat) : option Z :=
  match n with
  | O => None
  | S n' =>
      let t0 := curve_point cfg (i * 2) in
      let t1 := curve_point cfg ((i + 1) * 2) in
      if (elapsed_ms >=? t0) && (elapsed_ms <=? t1)
      then Some (interpolate cfg elapsed_ms i)
      else segment_loop cfg elapsed_ms (S i) n'
  end.

Definition calculate_speed (cfg : zip_speed_curve_config) (elapsed_ms : Z)
    : Z :=
  if (num_points cfg =? 0)%nat then 0
  else
    let first_time := curve_point cfg 0 in
    let first_speed := curve_point cfg 1 in
    if elapsed_ms <=? first_time then first_speed
    else
      let last_time := curve_point cfg ((num_points cfg - 1) * 2) in
      let last_speed := curve_point cfg ((num_points cfg - 1) * 2 + 1) in
      if elapsed_ms >=? last_time then last_speed
      else
        match segment_loop cfg elapsed_ms 0 (num_points cfg - 1) with
        | Some speed => speed
        | None => last_speed      (* "Should never reach here" *)
        end.

(** [zip_speed_curve_handle_event].  [param1], [param2] and [state] are not
    used by the C function. *)
Definition zip_speed_curve_handle_event (cfg : zip_speed_curve_config)
    (data : zip_speed_curve_data) (event : input_event) (clk : uptime)
    : outcome :=
  if negb (event_type event =? type cfg)
     || negb (code_matches cfg (code event))
  then {| ret := 0; data_out := data; event_out := event; log := [] |}
  else
    let v := value event in
    let is_x_axis := code event =? 0 in
    let current_direction :=
      if v >? 0 then 1 else if v <? 0 then -1 else 0 in
    if v =? 0 then
      let data := set_last_direction is_x_axis 0 data in
      if (last_x_direction data =? 0) && (last_y_direction data =? 0)
      then {| ret := 0; data_out := set_is_active false data;
              event_out := event; log := [LogMovementStopped] |}
      else {| ret := 0; data_out := data; event_out := event; log := [] |}
    else
      let changed :=
        negb (last_direction is_x_axis data =? 0)
        && negb (last_direction is_x_axis data =? current_direction) in
      let data1 := if changed then set_is_active false data else data in
      let log1 := if changed then [LogDirectionChanged] else [] in
      let data2 := set_last_direction is_x_axis current_direction data1 in
      let data3 :=
        if negb (is_active data2)
        then set_is_active true (set_start_time (now_start clk) data2)
        else data2 in
      let log2 :=
        if negb (is_active data2)
        then [LogMovementStarted (now_start clk)] else [] in
      let current_time := now_current clk in
      let elapsed_ms := int64 (current_time - start_time data3) in
      let speed_px_per_sec := calculate_speed cfg elapsed_ms in
      let movement0 :=
        Z.quot (int32 (speed_px_per_sec * trigger_period_ms cfg)) 1000 in
      let movement :=
        if (movement0 =? 0) && (speed_px_per_sec >? 0) then 1
        else movement0 in
      let event' := set_value (int32 (current_direction * movement)) event in
      {| ret := 0; data_out := data3; event_out := event';
         log := log1 ++ log2
                ++ [LogSpeedCurve elapsed_ms speed_px_per_sec
                                  (value event') v] |}.

(** [zip_speed_curve_init]: resets the four fields the handler uses and
    returns 0.  It does not read the configuration. *)
Definition zip_speed_curve_init (cfg : zip_speed_curve_config)
    (data : zip_speed_curve_data) : Z * zip_speed_curve_data :=
  (0,
   set_last_y_direction 0
     (set_last_x_direction 0
        (set_start_time 0 (set_is_active false data)))).

(** The devicetree properties of one instance, and [ZIP_SPEED_CURVE_INST]:
    the configuration built from them.  Each property value is converted to
    the type of the field or array element it initialises ([uint8_t type],
    [uint16_t] codes and period, [int32_t] cells).  The macro's designated
    initialiser has no [.track_remainders], so the field is
    zero-initialised. *)
Record dt_props : Type := {
  dt_type : Z;
  dt_codes : list Z;
  dt_curve_points : list Z;
  dt_trigger_period_ms : Z;
  dt_track_remainders : bool
}.

Definition ZIP_SPEED_CURVE_INST (p : dt_props) : zip_speed_curve_config :=
  {| type := uint8 (dt_type p);
     codes := map uint16 (dt_codes p);
     curve_points := map int32 (dt_curve_points p);
     trigger_period_ms := uint16 (dt_trigger_period_ms p);
     track_remainders := false |}.

(** [static struct zip_speed_curve_data zip_speed_curve_data_##n = {}]. *)
Definition zero_data : zip_speed_curve_data :=
  {| is_active := false; start_time := 0;
     x_start_time := 0; y_start_time := 0;
     last_x_direction := 0; last_y_direction := 0;
     x_remainder := 0; y_remainder := 0 |}.

(** A stream of events, each with the clock readings of its call, fed to the
    handler one after the other. *)
Fixpoint run (cfg : zip_speed_curve_config) (data : zip_speed_curve_data)
    (evs : list (input_event * uptime))
    : zip_speed_curve_data * list outcome :=
  match evs with
  | [] => (data, [])
  | (e, clk) :: rest =>
      let o := zip_speed_curve_handle_event cfg data e clk in
      let '(d', os) := run cfg (data_out o) rest in
      (d', o :: os)
  end.

(* ------------------------------------------------------------------ *)
(** ** Curve tables *)

(** Point [i] of the table is the pair [(time_at i, speed_of i)]. *)
Definition time_at (cfg : zip_speed_curve_config) (i : nat) : Z :=
  curve_point cfg (i * 2).
Definition speed_of (cfg : zip_speed_curve_config) (i : nat) : Z :=
  curve_point cfg (i * 2 + 1).

Definition first_time cfg := time_at cfg 0.
Definition first_speed cfg := speed_of cfg 0.
Definition last_time cfg := time_at cfg (num_points cfg - 1).
Definition last_speed cfg := speed_of cfg (num_points cfg - 1).

(** The start indices of the segments: [0 .. num_points - 2]. *)
Definition segments (cfg : zip_speed_curve_config) : list nat :=
  seq 0 (num_points cfg - 1).

Definition strictly_increasing_times (cfg : zip_speed_curve_config) : bool :=
  forallb (fun i => time_at cfg i <? time_at cfg (i + 1)) (segments cfg).

Definition non_decreasing_speeds (cfg : zip_speed_curve_config) : bool :=
  forallb (fun i => speed_of cfg i <=? speed_of cfg (i + 1)) (segments cfg).

(** The C arithmetic of the interpolation stays in range: every cell is an
    [int32_t], and the two 32-bit subtractions [t1 - t0] and [s1 - s0] of each
    segment do not overflow. *)
Definition points_in_int32 (cfg : zip_speed_curve_config) : bool :=
  forallb in_int32b (curve_points cfg).

Definition segments_in_int32 (cfg : zip_speed_curve_config) : bool :=
  forallb (fun i =>
             in_int32b (time_at cfg (i + 1) - time_at cfg i)
             && in_int32b (speed_of cfg (i + 1) - speed_of cfg i))
          (segments cfg).

Definition arith_in_range (cfg : zip_speed_curve_config) : bool :=
  points_in_int32 cfg && segments_in_int32 cfg.

(** The value of the interpolation formula over the integers, with the
    division truncating toward zero. *)
Definition lerp (t0 s0 t1 s1 e : Z) : Z :=
  s0 + Z.quot ((s1 - s0) * (e - t0)) (t1 - t0).

(** The well-formedness conditions the specification expects of a
    configuration. *)
Definition well_formed (cfg : zip_speed_curve_config) : bool :=
  strictly_increasing_times cfg
  && negb (codes_len cfg =? 0)%nat
  && (0 <? trigger_period_ms cfg).

(** The example table of the documentation. *)
Definition example_cfg : zip_speed_curve_config :=
  {| type := 2; codes := [0; 1];
     curve_points := [0; 50; 300; 200; 1000; 800];
     trigger_period_ms := 16; track_remainders := false |}.

(* ------------------------------------------------------------------ *)
(** ** Observations on the handler *)

(** The filter at the head of the handler lets the event through. *)
Definition matched (cfg : zip_speed_curve_config) (event : input_event)
    : bool :=
  (event_type event =? type cfg) && code_matches cfg (code event).

(** The axis test of the handler: code 0 is X, every other code is Y. *)
Definition is_x_axis (event : input_event) : bool := code event =? 0.

(** The arguments of the "Speed curve: ..." line, when the call logged one;
    it is the last line of such a call. *)
Definition speed_curve_line (o : outcome) : option (Z * Z) :=
  match last (log o) LogMovementStopped with
  | LogSpeedCurve elapsed speed _ _ => Some (elapsed, speed)
  | _ => None
  end.

Definition logged_elapsed (o : outcome) : option Z :=
  option_map fst (speed_curve_line o).
Definition logged_speed (o : outcome) : option Z :=
  option_map snd (speed_curve_line o).

(** Timing is off and both axes are at rest. *)
Definition at_rest (d : zip_speed_curve_data) : Prop :=
  is_active d = false /\ last_x_direction d = 0 /\ last_y_direction d = 0.

(** An event that cannot start the timer: filtered out, or a stop. *)
Definition quiet (cfg : zip_speed_curve_config)
    (e : input_event * uptime) : Prop :=
  matched cfg (fst e) = false \/ value (fst e) = 0.

(** A call during which the clock does not tick: both readings are [t]. *)
Definition at_ms (t : Z) : uptime := {| now_start := t; now_current := t |}.

(** Relative-motion events ([INPUT_EV_REL = 2]) on X and Y. *)
Definition rel_x (v : Z) : input_event :=
  {| event_type := 2; code := 0; value := v |}.
Definition rel_y (v : Z) : input_event :=
  {| event_type := 2; code := 1; value := v |}.

(** The runtime data of a fresh instance after [zip_speed_curve_init]. *)
Definition fresh_data (cfg : zip_speed_curve_config) : zip_speed_curve_data :=
  snd (zip_speed_curve_init cfg zero_data).

(** The emitted values of a run, and their sum. *)
Definition emitted (os : list outcome) : list Z :=
  map (fun o => value (event_out o)) os.
Definition total (l : list Z) : Z := fold_right Z.add 0 l.

(** An instance declared with [track-remainders], a constant 50 px/s curve
    and the default 16 ms period. *)
Definition remainder_props : dt_props :=
  {| dt_type := 2; dt_codes := [0; 1];
     dt_curve_points := [0; 50];
     dt_trigger_period_ms := 16;
     dt_track_remainders := true |}.

(** A configuration that is malformed in every way the specification lists:
    decreasing times, no code, a zero period. *)
Definition malformed_cfg : zip_speed_curve_config :=
  {| type := 2; codes := [];
     curve_points := [300; 200; 0; 50];
     trigger_period_ms := 0; track_remainders := false |}.

(** The configuration with its [track_remainders] flag set to [b]. *)
Definition with_track_remainders (b : bool) (cfg : zip_speed_curve_config)
    : zip_speed_curve_config :=
  {| type := type cfg; codes := codes cfg;
     curve_points := curve_points cfg;
     trigger_period_ms := trigger_period_ms cfg;
     track_remainders := b |}.

(** Ten X events of value 1, one per 16 ms period. *)
Definition ten_steps : list (input_event * uptime) :=
  map (fun t => (rel_x 1, at_ms t))
      [0; 16; 32; 48; 64; 80; 96; 112; 128; 144].

(** A table whose times are not sorted. *)
Definition unsorted_cfg : zip_speed_curve_config :=
  {| type := 2; codes := [0];
     curve_points := [0; 10; 50; 20; 20; 30; 90; 40];
     trigger_period_ms := 16; track_remainders := false |}.

(** A table whose speed difference does not fit in 32 bits. *)
Definition extreme_cfg : zip_speed_curve_config :=
  {| type := 2; codes := [0];
     curve_points := [0; -2147483648; 10; 2147482648];
     trigger_period_ms := 16; track_remainders := false |}.

(* ------------------------------------------------------------------ *)
(** ** Further observations *)

(** The conversion of a speed into the movement of one event: the division
    by 1000 and the forced minimum of the handler. *)
Definition movement_of (cfg : zip_speed_curve_config) (speed : Z) : Z :=
  let movement := Z.quot (int32 (speed * trigger_period_ms cfg)) 1000 in
  if (movement =? 0) && (speed >? 0) then 1 else movement.

(** The configuration with another table, or another code list. *)
Definition with_curve_points (pts : list Z) (cfg : zip_speed_curve_config)
    : zip_speed_curve_config :=
  {| type := type cfg; codes := codes cfg;
     curve_points := pts;
     trigger_period_ms := trigger_period_ms cfg;
     track_remainders := track_remainders cfg |}.

Definition with_codes (cs : list Z) (cfg : zip_speed_curve_config)
    : zip_speed_curve_config :=
  {| type := type cfg; codes := cs;
     curve_points := curve_points cfg;
     trigger_period_ms := trigger_period_ms cfg;
     track_remainders := track_remainders cfg |}.

(** A direction as the handler stores it. *)
Definition is_direction (z : Z) : Prop := z = -1 \/ z = 0 \/ z = 1.

(** The timer is off exactly when both axes are at rest, and the stored
    directions are -1, 0 or 1. *)
Definition timer_consistent (d : zip_speed_curve_data) : Prop :=
  (is_active d = false <-> last_x_direction d = 0 /\ last_y_direction d = 0)
  /\ is_direction (last_x_direction d)
  /\ is_direction (last_y_direction d).

(** The events of a stream that move one axis in one direction. *)
Definition pushes (cfg : zip_speed_curve_config) (x : bool) (dir : Z)
    (p : input_event * uptime) : Prop :=
  matched cfg (fst p) = true
  /\ is_x_axis (fst p) = x
  /\ Z.sgn (value (fst p)) = dir.

(** The clock readings of a stream never go back: from time [t] on, each
    call reads its start time, then its current time, then the next call
    follows; all readings are 64-bit uptimes. *)
Fixpoint monotone_clock (t : Z) (evs : list (input_event * uptime)) : Prop :=
  match evs with
  | [] => True
  | (_, clk) :: rest =>
      t <= now_start clk /\ now_start clk <= now_current clk
      /\ now_current clk < 2 ^ 63
      /\ monotone_clock (now_current clk) rest
  end.

(** The start time of a running timer lies between 0 and [t]. *)
Definition started_by (t : Z) (d : zip_speed_curve_data) : Prop :=
  is_active d = true -> 0 <= start_time d <= t.

(* ------------------------------------------------------------------ *)
(** ** Wrap-around *)

(** Range goals and hypotheses, with the powers of two computed. *)
Ltac unfold_ranges :=
  unfold in_int32, in_int64, int32, int64, wrap in *;
  change (2 ^ (32 - 1)) with 2147483648 in *;
  change (2 ^ 31) with 2147483648 in *;
  change (2 ^ 32) with 4294967296 in *;
  change (2 ^ (64 - 1)) with 9223372036854775808 in *;
  change (2 ^ 63) with 9223372036854775808 in *;
  change (2 ^ 64) with 18446744073709551616 in *.

Ltac in_range := unfold in_int32, in_int64;
  change (2 ^ 31) with 2147483648 in *;
  change (2 ^ 63) with 9223372036854775808 in *;
  first [lia | nia].

Section Wrap.

Lemma int32_id z : in_int32 z -> int32 z = z.
Proof. intros H. unfold_ranges. rewrite Z.mod_small; lia. Qed.

Lemma int64_id z : in_int64 z -> int64 z = z.
Proof. intros H. unfold_ranges. rewrite Z.mod_small; lia. Qed.

Lemma int32_range z : in_int32 (int32 z).
Proof.
  unfold_ranges.
  pose proof (Z.mod_pos_bound (z + 2147483648) 4294967296 ltac:(lia)).
  lia.
Qed.

(** A wrapped value is 0 only for a multiple of [2^32]. *)
Lemma int32_nonzero z :
  z <> 0 -> - 2 ^ 32 < z < 2 ^ 32 -> int32 z <> 0.
Proof.
  intros Hz Hr He. unfold_ranges.
  pose proof (Z.div_mod (z + 2147483648) 4294967296 ltac:(lia)) as Hd.
  assert (Hq : (z + 2147483648) / 4294967296 = 0
               \/ (z + 2147483648) / 4294967296 = -1
               \/ (z + 2147483648) / 4294967296 = 1 \/
               (z + 2147483648) / 4294967296 <= -2 \/
               2 <= (z + 2147483648) / 4294967296) by lia.
  lia.
Qed.

Lemma in_int32b_spec z : in_int32b z = true <-> in_int32 z.
Proof.
  unfold in_int32b, in_int32.
  rewrite andb_true_iff, Z.leb_le, Z.ltb_lt. tauto.
Qed.

End Wrap.

(* ------------------------------------------------------------------ *)
(** ** Truncating division on a segment *)

Section Quot.

(** [a * x ÷ d] for [0 <= x <= d] lies between [0] and [a]. *)
Lemma quot_scale_nonneg a x d :
  0 <= a -> 0 <= x <= d -> 0 < d -> 0 <= Z.quot (a * x) d <= a.
Proof.
  intros Ha Hx Hd.
  rewrite Z.quot_div_nonneg by nia.
  split.
  - apply Z.div_pos; nia.
  - rewrite <- (Z.div_mul a d) at 2 by lia.
    apply Z.div_le_mono; nia.
Qed.

Lemma quot_scale_nonpos a x d :
  a <= 0 -> 0 <= x <= d -> 0 < d -> a <= Z.quot (a * x) d <= 0.
Proof.
  intros Ha Hx Hd.
  replace (a * x) with (- ((- a) * x)) by ring.
  rewrite Z.quot_opp_l by lia.
  pose proof (quot_scale_nonneg (- a) x d ltac:(lia) Hx Hd). lia.
Qed.

Lemma quot_scale_bound a x d :
  0 <= x <= d -> 0 < d -> Z.abs (Z.quot (a * x) d) <= Z.abs a.
Proof.
  intros Hx Hd. destruct (Z_le_gt_dec 0 a).
  - pose proof (quot_scale_nonneg a x d ltac:(lia) Hx Hd). lia.
  - pose proof (quot_scale_nonpos a x d ltac:(lia) Hx Hd). lia.
Qed.

(** Monotone in [x] for a non-negative slope. *)
Lemma quot_scale_mono a x y d :
  0 <= a -> 0 <= x <= y -> 0 < d ->
  Z.quot (a * x) d <= Z.quot (a * y) d.
Proof.
  intros Ha Hx Hd.
  rewrite !Z.quot_div_nonneg by nia.
  apply Z.div_le_mono; nia.
Qed.

(** The formula at the two ends of a segment. *)
Lemma lerp_left t0 s0 t1 s1 : lerp t0 s0 t1 s1 t0 = s0.
Proof.
  unfold lerp. rewrite Z.sub_diag, Z.mul_0_r.
  destruct (Z.eq_dec (t1 - t0) 0) as [E | E].
  - rewrite E. cbn. lia.
  - rewrite Z.quot_0_l by exact E. lia.
Qed.

Lemma lerp_right t0 s0 t1 s1 : t0 <> t1 -> lerp t0 s0 t1 s1 t1 = s1.
Proof.
  intros H. unfold lerp. rewrite Z.quot_mul by lia. lia.
Qed.

(** The C expression computes [lerp] when nothing overflows. *)
Lemma interp_exact t0 s0 t1 s1 e :
  in_int32 t0 -> in_int32 s0 -> in_int32 t1 -> in_int32 s1 ->
  in_int32 (t1 - t0) -> in_int32 (s1 - s0) ->
  t0 <= e <= t1 -> t0 < t1 ->
  int32 (int64 (s0 + int64 (Z.quot (int64 (int32 (s1 - s0)
                                            * int64 (e - t0)))
                                   (int32 (t1 - t0)))))
  = lerp t0 s0 t1 s1 e.
Proof.
  intros Ht0 Hs0 Ht1 Hs1 Hdt Hds He Hlt.
  unfold lerp.
  pose proof (quot_scale_bound (s1 - s0) (e - t0) (t1 - t0)
                ltac:(lia) ltac:(lia)) as Hq.
  assert (Hbetween : s0 <= s0 + Z.quot ((s1 - s0) * (e - t0)) (t1 - t0) <= s1
                     \/ s1 <= s0 + Z.quot ((s1 - s0) * (e - t0)) (t1 - t0)
                             <= s0).
  { destruct (Z_le_gt_dec 0 (s1 - s0)) as [Hp | Hn].
    - left.
      pose proof (quot_scale_nonneg (s1 - s0) (e - t0) (t1 - t0)
                    Hp ltac:(lia) ltac:(lia)). lia.
    - right.
      pose proof (quot_scale_nonpos (s1 - s0) (e - t0) (t1 - t0)
                    ltac:(lia) ltac:(lia) ltac:(lia)). lia. }
  unfold in_int32 in Ht0, Hs0, Ht1, Hs1, Hdt, Hds.
  change (2 ^ 31) with 2147483648 in *.
  rewrite (int32_id (t1 - t0)), (int32_id (s1 - s0)) by in_range.
  rewrite (int64_id (e - t0)) by in_range.
  rewrite (int64_id ((s1 - s0) * (e - t0))) by in_range.
  rewrite (int64_id (Z.quot _ _)) by in_range.
  rewrite int64_id by in_range.
  apply int32_id. in_range.
Qed.

End Quot.

(* ------------------------------------------------------------------ *)
(** ** Facts about a curve table *)

Section Curve.

Variable cfg : zip_speed_curve_config.

Lemma in_segments i : In i (segments cfg) <-> (i + 1 < num_points cfg)%nat.
Proof. unfold segments. rewrite in_seq. lia. Qed.

Lemma times_step i :
  strictly_increasing_times cfg = true ->
  (i + 1 < num_points cfg)%nat -> time_at cfg i < time_at cfg (i + 1).
Proof.
  unfold strictly_increasing_times. rewrite forallb_forall.
  intros H Hi. apply Z.ltb_lt, H, in_segments, Hi.
Qed.

Lemma speeds_step i :
  non_decreasing_speeds cfg = true ->
  (i + 1 < num_points cfg)%nat -> speed_of cfg i <= speed_of cfg (i + 1).
Proof.
  unfold non_decreasing_speeds. rewrite forallb_forall.
  intros H Hi. apply Z.leb_le, H, in_segments, Hi.
Qed.

(** The times grow with the index. *)
Lemma times_lt a b :
  strictly_increasing_times cfg = true ->
  (a < b)%nat -> (b < num_points cfg)%nat ->
  time_at cfg a < time_at cfg b.
Proof.
  intros H Hab. induction Hab as [| b Hab IH]; intros Hb.
  - replace (S a) with (a + 1)%nat by lia. apply times_step; [exact H | lia].
  - apply Z.lt_trans with (time_at cfg b); [apply IH; lia |].
    replace (S b) with (b + 1)%nat by lia. apply times_step; [exact H | lia].
Qed.

Lemma speeds_le a b :
  non_decreasing_speeds cfg = true ->
  (a <= b)%nat -> (b < num_points cfg)%nat ->
  speed_of cfg a <= speed_of cfg b.
Proof.
  intros H Hab. induction Hab as [| b Hab IH]; intros Hb.
  - lia.
  - apply Z.le_trans with (speed_of cfg b); [apply IH; lia |].
    replace (S b) with (b + 1)%nat by lia. apply speeds_step; [exact H | lia].
Qed.

Lemma two_num_points : (2 * num_points cfg <= curve_points_len cfg)%nat.
Proof.
  unfold num_points.
  pose proof (Nat.div_mod_eq (curve_points_len cfg) 2). lia.
Qed.

Lemma cell_in_int32 k :
  points_in_int32 cfg = true ->
  (k < 2 * num_points cfg)%nat -> in_int32 (curve_point cfg k).
Proof.
  unfold points_in_int32. rewrite forallb_forall. intros H Hk.
  apply in_int32b_spec, H. unfold curve_point. apply nth_In.
  pose proof two_num_points. unfold curve_points_len in *. lia.
Qed.

Lemma segment_in_int32 i :
  segments_in_int32 cfg = true -> (i + 1 < num_points cfg)%nat ->
  in_int32 (time_at cfg (i + 1) - time_at cfg i)
  /\ in_int32 (speed_of cfg (i + 1) - speed_of cfg i).
Proof.
  unfold segments_in_int32. rewrite forallb_forall. intros H Hi.
  specialize (H i (proj2 (in_segments i) Hi)).
  apply andb_true_iff in H. destruct H as [H1 H2].
  split; apply in_int32b_spec; assumption.
Qed.

(** On a segment whose arithmetic is in range the code computes the
    formula. *)
Lemma interpolate_lerp e i :
  arith_in_range cfg = true -> (i + 1 < num_points cfg)%nat ->
  time_at cfg i <= e <= time_at cfg (i + 1) ->
  time_at cfg i < time_at cfg (i + 1) ->
  interpolate cfg e i
  = lerp (time_at cfg i) (speed_of cfg i)
         (time_at cfg (i + 1)) (speed_of cfg (i + 1)) e.
Proof.
  intros Hr Hi He Hlt.
  apply andb_true_iff in Hr. destruct Hr as [Hp Hs].
  destruct (segment_in_int32 i Hs Hi) as [Hdt Hds].
  unfold interpolate. fold (time_at cfg i) (speed_of cfg i)
    (time_at cfg (i + 1)) (speed_of cfg (i + 1)).
  apply interp_exact; try assumption;
    unfold time_at, speed_of; apply cell_in_int32; try assumption; lia.
Qed.

(** The value on a segment lies between the speeds of its two ends. *)
Lemma lerp_between_up t0 s0 t1 s1 e :
  s0 <= s1 -> t0 <= e <= t1 -> t0 < t1 ->
  s0 <= lerp t0 s0 t1 s1 e <= s1.
Proof.
  intros Hs He Hlt. unfold lerp.
  pose proof (quot_scale_nonneg (s1 - s0) (e - t0) (t1 - t0)
                ltac:(lia) ltac:(lia) ltac:(lia)).
  lia.
Qed.

(** The search loop.  When it is entered at index [i] with the elapsed time
    above the time of point [i] and below the time of the point where it
    would stop, it returns from inside, at the first segment whose right
    end is not below the elapsed time. *)
Lemma segment_loop_hit e n i :
  time_at cfg i < e -> e < time_at cfg (i + n) ->
  exists j, (i <= j < i + n)%nat
            /\ time_at cfg j < e <= time_at cfg (j + 1)
            /\ segment_loop cfg e i n = Some (interpolate cfg e j).
Proof.
  revert i. induction n as [| n IH]; intros i Hlo Hhi.
  - rewrite Nat.add_0_r in Hhi. lia.
  - cbn [segment_loop].
    fold (time_at cfg i) (time_at cfg (i + 1)).
    destruct ((e >=? time_at cfg i) && (e <=? time_at cfg (i + 1))) eqn:Hc.
    + apply andb_true_iff in Hc. destruct Hc as [_ Hc].
      apply Z.leb_le in Hc.
      exists i. repeat split; try lia; assumption.
    + apply andb_false_iff in Hc.
      assert (Hgt : time_at cfg (S i) < e).
      { replace (S i) with (i + 1)%nat by lia.
        destruct Hc as [Hc | Hc].
        - rewrite Z.geb_leb in Hc. apply Z.leb_gt in Hc. lia.
        - apply Z.leb_gt in Hc. exact Hc. }
      destruct (IH (S i) Hgt) as (j & Hj & Hseg & Hres).
      { replace (S i + n)%nat with (i + S n)%nat by lia. exact Hhi. }
      exists j. repeat split; try lia; assumption.
Qed.

(** The branches of [calculate_speed], one lemma each. *)
Lemma calculate_speed_empty e :
  num_points cfg = 0%nat -> calculate_speed cfg e = 0.
Proof. intros H. unfold calculate_speed. rewrite H. reflexivity. Qed.

Lemma calculate_speed_low e :
  (1 <= num_points cfg)%nat -> e <= first_time cfg ->
  calculate_speed cfg e = first_speed cfg.
Proof.
  intros Hn He. unfold calculate_speed.
  destruct (Nat.eqb_spec (num_points cfg) 0); [lia |].
  fold (first_time cfg).
  replace (curve_point cfg 0) with (first_time cfg) by reflexivity.
  destruct (Z.leb_spec e (first_time cfg)); [reflexivity | lia].
Qed.

Lemma calculate_speed_high e :
  (1 <= num_points cfg)%nat -> first_time cfg < e -> last_time cfg <= e ->
  calculate_speed cfg e = last_speed cfg.
Proof.
  intros Hn Hlo Hhi. unfold calculate_speed.
  destruct (Nat.eqb_spec (num_points cfg) 0); [lia |].
  replace (curve_point cfg 0) with (first_time cfg) by reflexivity.
  destruct (Z.leb_spec e (first_time cfg)); [lia |].
  fold (time_at cfg (num_points cfg - 1)). fold (last_time cfg).
  destruct (e >=? last_time cfg) eqn:Hc; [reflexivity |].
  rewrite Z.geb_leb in Hc. apply Z.leb_gt in Hc. lia.
Qed.

Lemma calculate_speed_inner e :
  first_time cfg < e -> e < last_time cfg ->
  exists j, (j + 1 < num_points cfg)%nat
            /\ time_at cfg j < e <= time_at cfg (j + 1)
            /\ segment_loop cfg e 0 (num_points cfg - 1)
               = Some (interpolate cfg e j)
            /\ calculate_speed cfg e = interpolate cfg e j.
Proof.
  intros Hlo Hhi.
  assert (Hn : (num_points cfg <> 0)%nat).
  { intros E. unfold last_time, first_time in *. rewrite E in Hhi.
    simpl in Hhi. lia. }
  destruct (segment_loop_hit e (num_points cfg - 1) 0) as (j & Hj & Hseg & Hres).
  { exact Hlo. }
  { exact Hhi. }
  exists j. split; [lia |]. split; [exact Hseg |]. split; [exact Hres |].
  unfold calculate_speed.
  destruct (Nat.eqb_spec (num_points cfg) 0); [lia |].
  replace (curve_point cfg 0) with (first_time cfg) by reflexivity.
  destruct (Z.leb_spec e (first_time cfg)); [lia |].
  fold (time_at cfg (num_points cfg - 1)). fold (last_time cfg).
  destruct (e >=? last_time cfg) eqn:Hc.
  - rewrite Z.geb_leb in Hc. apply Z.leb_le in Hc. lia.
  - rewrite Hres. reflexivity.
Qed.

End Curve.

(* ------------------------------------------------------------------ *)
(** ** The interpolator on a well-formed table *)

Section Interpolator.

Variable cfg : zip_speed_curve_config.

(** Strictly inside the table the result is the formula of the segment the
    loop stops at, the one with [time_at j < e <= time_at (j + 1)]. *)
Lemma calculate_speed_inner_lerp e :
  arith_in_range cfg = true ->
  first_time cfg < e -> e < last_time cfg ->
  exists j, (j + 1 < num_points cfg)%nat
            /\ time_at cfg j < e <= time_at cfg (j + 1)
            /\ calculate_speed cfg e
               = lerp (time_at cfg j) (speed_of cfg j)
                      (time_at cfg (j + 1)) (speed_of cfg (j + 1)) e.
Proof.
  intros Hr Hlo Hhi.
  destruct (calculate_speed_inner cfg e Hlo Hhi) as (j & Hj & Hseg & _ & Hres).
  exists j. split; [exact Hj |]. split; [exact Hseg |].
  rewrite Hres. apply interpolate_lerp; try assumption; lia.
Qed.

Hypothesis Hmono : non_decreasing_speeds cfg = true.

(** With non-decreasing speeds every result lies between the first and the
    last speed. *)
Lemma calculate_speed_bounds e :
  arith_in_range cfg = true -> (1 <= num_points cfg)%nat ->
  first_speed cfg <= calculate_speed cfg e <= last_speed cfg.
Proof.
  intros Hr Hn.
  assert (Hfl : first_speed cfg <= last_speed cfg).
  { apply speeds_le; [exact Hmono | lia | lia]. }
  destruct (Z_le_gt_dec e (first_time cfg)) as [Hlo | Hlo].
  - rewrite calculate_speed_low by assumption. lia.
  - destruct (Z_le_gt_dec (last_time cfg) e) as [Hhi | Hhi].
    + rewrite calculate_speed_high by (assumption || lia). lia.
    + destruct (calculate_speed_inner_lerp e Hr) as (j & Hj & Hseg & Hres);
        try lia.
      rewrite Hres.
      pose proof (lerp_between_up (time_at cfg j) (speed_of cfg j)
                    (time_at cfg (j + 1)) (speed_of cfg (j + 1)) e
                    (speeds_step cfg j Hmono Hj) ltac:(lia) ltac:(lia)).
      pose proof (speeds_le cfg 0 j Hmono ltac:(lia) ltac:(lia)).
      pose proof (speeds_le cfg (j + 1) (num_points cfg - 1) Hmono
                    ltac:(lia) ltac:(lia)).
      unfold first_speed, last_speed. lia.
Qed.

Hypothesis Hsorted : strictly_increasing_times cfg = true.

Lemma times_lt_inv a b :
  (a < num_points cfg)%nat -> (b < num_points cfg)%nat ->
  time_at cfg a < time_at cfg b -> (a < b)%nat.
Proof.
  intros Ha Hb Hlt.
  destruct (Nat.lt_trichotomy a b) as [H | [H | H]]; [exact H | subst; lia |].
  pose proof (times_lt cfg b a Hsorted H Ha). lia.
Qed.

(** Two elapsed times strictly inside the table. *)
Lemma calculate_speed_inner_mono e1 e2 :
  arith_in_range cfg = true ->
  first_time cfg < e1 -> e1 <= e2 -> e2 < last_time cfg ->
  calculate_speed cfg e1 <= calculate_speed cfg e2.
Proof.
  intros Hr Hlo Hle Hhi.
  destruct (calculate_speed_inner_lerp e1 Hr) as (j1 & Hj1 & Hs1 & Hr1);
    try lia.
  destruct (calculate_speed_inner_lerp e2 Hr) as (j2 & Hj2 & Hs2 & Hr2);
    try lia.
  rewrite Hr1, Hr2.
  assert (Hidx : (j1 < j2 + 1)%nat).
  { apply times_lt_inv; lia. }
  pose proof (speeds_step cfg j1 Hmono Hj1) as Hup1.
  pose proof (speeds_step cfg j2 Hmono Hj2) as Hup2.
  destruct (Nat.eq_dec j1 j2) as [E | E].
  - subst j2. unfold lerp.
    pose proof (quot_scale_mono
                  (speed_of cfg (j1 + 1) - speed_of cfg j1)
                  (e1 - time_at cfg j1) (e2 - time_at cfg j1)
                  (time_at cfg (j1 + 1) - time_at cfg j1)
                  ltac:(lia) ltac:(lia) ltac:(lia)).
    lia.
  - pose proof (lerp_between_up (time_at cfg j1) (speed_of cfg j1)
                  (time_at cfg (j1 + 1)) (speed_of cfg (j1 + 1)) e1
                  Hup1 ltac:(lia) ltac:(lia)).
    pose proof (lerp_between_up (time_at cfg j2) (speed_of cfg j2)
                  (time_at cfg (j2 + 1)) (speed_of cfg (j2 + 1)) e2
                  Hup2 ltac:(lia) ltac:(lia)).
    pose proof (speeds_le cfg (j1 + 1) j2 Hmono ltac:(lia) ltac:(lia)).
    lia.
Qed.

End Interpolator.

(* ------------------------------------------------------------------ *)
(** ** Properties of [calculate_speed] *)

(** C10.  Whenever the elapsed time lies strictly between the times of the
    first and the last point, the search loop of [calculate_speed] returns
    from inside, at a segment [j] that encloses the elapsed time; the
    [return last_speed] after the loop is never reached.  This holds for every
    table: the two clamps before the loop already exclude every other elapsed
    time, so neither the point count nor the ordering of the times has to be
    assumed. *)
Theorem segment_search_finds_segment cfg e :
  first_time cfg < e -> e < last_time cfg ->
  exists j, (j + 1 < num_points cfg)%nat
            /\ time_at cfg j <= e <= time_at cfg (j + 1)
            /\ segment_loop cfg e 0 (num_points cfg - 1)
               = Some (interpolate cfg e j)
            /\ calculate_speed cfg e = interpolate cfg e j.
Proof.
  intros Hlo Hhi.
  destruct (calculate_speed_inner cfg e Hlo Hhi) as (j & Hj & Hseg & Hl & Hr).
  exists j. repeat split; try assumption; lia.
Qed.

Lemma segment_search_finds_segment_witness :
  exists j, (j + 1 < num_points example_cfg)%nat
            /\ time_at example_cfg j <= 500 <= time_at example_cfg (j + 1)
            /\ segment_loop example_cfg 500 0 (num_points example_cfg - 1)
               = Some (interpolate example_cfg 500 j)
            /\ calculate_speed example_cfg 500 = interpolate example_cfg 500 j.
Proof.
  apply (segment_search_finds_segment example_cfg 500); reflexivity.
Defined.

(** A strictly increasing table with a point has its first time below its
    last time, or has a single point, whose speed is both the first and the
    last. *)
Lemma sorted_clamp_condition cfg :
  (1 <= num_points cfg)%nat -> strictly_increasing_times cfg = true ->
  first_time cfg < last_time cfg \/ first_speed cfg = last_speed cfg.
Proof.
  intros Hn Hs.
  destruct (Nat.eq_dec (num_points cfg) 1) as [E | E].
  - right. unfold first_speed, last_speed. rewrite E. reflexivity.
  - left. apply times_lt; [exact Hs | lia | lia].
Qed.

(** No function at all satisfies both clamps on a table outside that
    condition: at [first_time] the two clamps ask for different results. *)
Lemma clamps_need_order cfg (f : Z -> Z) :
  (forall e, e <= first_time cfg -> f e = first_speed cfg) ->
  (forall e, last_time cfg <= e -> f e = last_speed cfg) ->
  first_time cfg < last_time cfg \/ first_speed cfg = last_speed cfg.
Proof.
  intros Hlo Hhi.
  destruct (Z_lt_ge_dec (first_time cfg) (last_time cfg)) as [H | H];
    [left; exact H | right].
  rewrite <- (Hlo (first_time cfg)), <- (Hhi (first_time cfg)); lia.
Qed.

(** C5.  On a table with at least one point, [calculate_speed] clamps: at or
    below the first point's time it returns the first point's speed, at or
    above the last point's time the last point's speed, and a single-point
    table gives its one speed for every elapsed time.  The condition on the
    table (first time below last time, or equal first and last speeds) holds
    for every strictly increasing table and for every single-point table, and
    is the one under which the two clamps can be asked for together. *)
Theorem calculate_speed_clamps cfg :
  (1 <= num_points cfg)%nat ->
  first_time cfg < last_time cfg \/ first_speed cfg = last_speed cfg ->
  (forall e, e <= first_time cfg -> calculate_speed cfg e = first_speed cfg)
  /\ (forall e, last_time cfg <= e -> calculate_speed cfg e = last_speed cfg)
  /\ (num_points cfg = 1%nat ->
      forall e, calculate_speed cfg e = first_speed cfg).
Proof.
  intros Hn Hc. split; [| split].
  - intros e He. apply calculate_speed_low; assumption.
  - intros e He.
    destruct (Z_le_gt_dec e (first_time cfg)) as [Hlo | Hlo].
    + rewrite calculate_speed_low by assumption.
      destruct Hc as [Hc | Hc]; [lia | exact Hc].
    + apply calculate_speed_high; [assumption | lia | assumption].
  - intros E e.
    destruct (Z_le_gt_dec e (first_time cfg)) as [Hlo | Hlo].
    + apply calculate_speed_low; assumption.
    + rewrite calculate_speed_high; try assumption; try lia.
      * unfold first_speed, last_speed. rewrite E. reflexivity.
      * unfold first_time, last_time in *. rewrite E. simpl. lia.
Qed.

Lemma calculate_speed_clamps_witness :
  (forall e, e <= first_time example_cfg ->
             calculate_speed example_cfg e = first_speed example_cfg)
  /\ (forall e, last_time example_cfg <= e ->
                calculate_speed example_cfg e = last_speed example_cfg)
  /\ (num_points example_cfg = 1%nat ->
      forall e, calculate_speed example_cfg e = first_speed example_cfg).
Proof.
  apply (calculate_speed_clamps example_cfg);
    [vm_compute; lia | left; reflexivity].
Defined.

(** X18.  On a table with strictly increasing times whose arithmetic stays in
    the 32-bit range, for an elapsed time strictly between the first and the
    last point's time: a consecutive pair [(t0,s0), (t1,s1)] with
    [t0 <= elapsed_ms <= t1] exists, and for every such pair the result is
    [s0 + (s1 - s0) * (elapsed_ms - t0) / (t1 - t0)] with the division
    truncating toward zero (at an inner point's time the two pairs that
    contain it give the same value).  For the table
    [(0,50),(300,200),(1000,800)] the results at 0, 150, 300 and 1000 are
    50, 125, 200 and 800. *)
Theorem calculate_speed_interpolates :
  (forall cfg e,
      strictly_increasing_times cfg = true ->
      arith_in_range cfg = true ->
      first_time cfg < e -> e < last_time cfg ->
      (exists j, (j + 1 < num_points cfg)%nat
                 /\ time_at cfg j <= e <= time_at cfg (j + 1))
      /\ (forall j,
             (j + 1 < num_points cfg)%nat ->
             time_at cfg j <= e <= time_at cfg (j + 1) ->
             calculate_speed cfg e
             = lerp (time_at cfg j) (speed_of cfg j)
                    (time_at cfg (j + 1)) (speed_of cfg (j + 1)) e))
  /\ curve_points example_cfg = [0; 50; 300; 200; 1000; 800]
  /\ calculate_speed example_cfg 0 = 50
  /\ calculate_speed example_cfg 150 = 125
  /\ calculate_speed example_cfg 300 = 200
  /\ calculate_speed example_cfg 1000 = 800.
Proof.
  split; [| repeat split; reflexivity].
  intros cfg e Hs Hr Hlo Hhi.
  destruct (calculate_speed_inner_lerp cfg e Hr Hlo Hhi)
    as (k & Hk & Hseg & Hres).
  split.
  - exists k. split; [exact Hk | lia].
  - intros j Hj Hin. rewrite Hres.
    assert (Hkj : (k < j + 1)%nat) by (apply (times_lt_inv cfg Hs); lia).
    assert (Hjk : (j < k + 1 \/ j = k + 1)%nat).
    { destruct (Nat.lt_trichotomy j (k + 1)) as [H | [H | H]]; try lia.
      pose proof (times_lt cfg (k + 1) j Hs H ltac:(lia)). lia. }
    destruct Hjk as [Hjk | Hjk].
    + replace j with k by lia. reflexivity.
    + subst j.
      assert (He : e = time_at cfg (k + 1)) by lia.
      rewrite He. rewrite lerp_left, lerp_right by lia. reflexivity.
Qed.

Lemma calculate_speed_interpolates_witness :
  calculate_speed example_cfg 150 = lerp 0 50 300 200 150
  /\ calculate_speed example_cfg 300 = lerp 300 200 1000 800 300
  /\ calculate_speed example_cfg 300 = lerp 0 50 300 200 300.
Proof.
  pose proof (proj1 calculate_speed_interpolates example_cfg) as H.
  split; [| split].
  - apply (proj2 (H 150 eq_refl eq_refl eq_refl eq_refl) 0%nat);
      vm_compute; [lia | split; discriminate].
  - apply (proj2 (H 300 eq_refl eq_refl eq_refl eq_refl) 1%nat);
      vm_compute; [lia | split; discriminate].
  - apply (proj2 (H 300 eq_refl eq_refl eq_refl eq_refl) 0%nat);
      vm_compute; [lia | split; discriminate].
Defined.

(** The range condition is needed in this model.  On [extreme_cfg] the 32-bit
    subtraction [s1 - s0] overflows (in C a signed overflow, which is
    undefined; here it wraps to -1000), and the result is neither the value
    of the formula nor monotone. *)
Lemma interpolate_outside_range :
  strictly_increasing_times extreme_cfg = true
  /\ non_decreasing_speeds extreme_cfg = true
  /\ arith_in_range extreme_cfg = false
  /\ calculate_speed extreme_cfg 1 = 2147483548
  /\ calculate_speed extreme_cfg 5 = 2147483148
  /\ lerp 0 (-2147483648) 10 2147482648 5 = -500.
Proof. vm_compute. repeat split; reflexivity. Qed.

(** X19.  On a table with strictly increasing times and non-decreasing speeds,
    whose arithmetic stays in the 32-bit range, [calculate_speed] is
    non-decreasing in the elapsed time, across the clamps and the segment
    boundaries and under the truncating division. *)
Theorem calculate_speed_monotone cfg e1 e2 :
  strictly_increasing_times cfg = true ->
  non_decreasing_speeds cfg = true ->
  arith_in_range cfg = true ->
  e1 <= e2 ->
  calculate_speed cfg e1 <= calculate_speed cfg e2.
Proof.
  intros Hs Hm Hr Hle.
  destruct (Nat.eq_dec (num_points cfg) 0) as [E | E].
  - rewrite !calculate_speed_empty by exact E. lia.
  - assert (Hn : (1 <= num_points cfg)%nat) by lia.
    pose proof (calculate_speed_bounds cfg Hm e1 Hr Hn) as B1.
    pose proof (calculate_speed_bounds cfg Hm e2 Hr Hn) as B2.
    destruct (Z_le_gt_dec e1 (first_time cfg)) as [Hlo | Hlo].
    + rewrite (calculate_speed_low cfg e1) by assumption. lia.
    + destruct (Z_le_gt_dec (last_time cfg) e2) as [Hhi | Hhi].
      * rewrite (calculate_speed_high cfg e2) by (assumption || lia). lia.
      * apply calculate_speed_inner_mono; try assumption; lia.
Qed.

Lemma calculate_speed_monotone_witness :
  calculate_speed example_cfg 299 <= calculate_speed example_cfg 301.
Proof.
  apply (calculate_speed_monotone example_cfg 299 301);
    [reflexivity | reflexivity | reflexivity | lia].
Defined.

(** C4, on the code.  [int64_t speed_delta = s1 - s0] subtracts two
    [int32_t] in 32 bits and widens the result afterwards, so a speed step of
    2^31 or more does not reach the 64-bit product.  On the two-point table
    [(0,-2147483648),(10,2147482648)], whose times are strictly increasing,
    at elapsed 5 (strictly between the two times, enclosed by the one pair)
    the step 4294966296 has wrapped to -1000 and the result is 2147483148,
    whereas [s0 + (s1 - s0) * (elapsed_ms - t0) / (t1 - t0)] is -500. *)
Theorem interpolation_loses_wide_speed_step :
  curve_points extreme_cfg = [0; -2147483648; 10; 2147482648]
  /\ num_points extreme_cfg = 2%nat
  /\ strictly_increasing_times extreme_cfg = true
  /\ points_in_int32 extreme_cfg = true
  /\ first_time extreme_cfg < 5 < last_time extreme_cfg
  /\ time_at extreme_cfg 0 <= 5 <= time_at extreme_cfg 1
  /\ int32 (speed_of extreme_cfg 1 - speed_of extreme_cfg 0) = -1000
  /\ calculate_speed extreme_cfg 5 = 2147483148
  /\ lerp (time_at extreme_cfg 0) (speed_of extreme_cfg 0)
          (time_at extreme_cfg 1) (speed_of extreme_cfg 1) 5 = -500
  /\ calculate_speed extreme_cfg 5
     <> lerp (time_at extreme_cfg 0) (speed_of extreme_cfg 0)
             (time_at extreme_cfg 1) (speed_of extreme_cfg 1) 5.
Proof.
  vm_compute. repeat split; try reflexivity; discriminate.
Qed.

(** C6, on the code.  The same 32-bit subtraction breaks the order of the
    results.  The table [(0,-2147483648),(10,2147482648)] has strictly
    increasing times and non-decreasing speeds, yet the speed at elapsed 1 is
    2147483548 and the speed at the later elapsed 5 is the smaller
    2147483148; both exceed the last point's speed. *)
Theorem monotonicity_lost_on_wide_speed_step :
  strictly_increasing_times extreme_cfg = true
  /\ non_decreasing_speeds extreme_cfg = true
  /\ points_in_int32 extreme_cfg = true
  /\ 1 <= 5
  /\ calculate_speed extreme_cfg 1 = 2147483548
  /\ calculate_speed extreme_cfg 5 = 2147483148
  /\ ~ calculate_speed extreme_cfg 1 <= calculate_speed extreme_cfg 5
  /\ last_speed extreme_cfg < calculate_speed extreme_cfg 5.
Proof.
  vm_compute. repeat split; try reflexivity; try discriminate.
  intros H. apply H. reflexivity.
Qed.

(* ------------------------------------------------------------------ *)
(** ** The handler, case by case *)

Lemma code_matches_In cfg c : code_matches cfg c = true <-> In c (codes cfg).
Proof.
  unfold code_matches. induction (codes cfg) as [| c0 cs IH]; simpl.
  - split; [discriminate | tauto].
  - destruct (Z.eqb_spec c0 c) as [E | E].
    + split; [left; exact E | reflexivity].
    + rewrite IH. split; [tauto | intros [H | H]; [contradiction | exact H]].
Qed.

Lemma matched_false cfg event :
  matched cfg event = false <->
  event_type event <> type cfg \/ ~ In (code event) (codes cfg).
Proof.
  unfold matched. rewrite andb_false_iff, Z.eqb_neq.
  rewrite <- code_matches_In, not_true_iff_false. tauto.
Qed.

Lemma current_direction_sgn v :
  (if v >? 0 then 1 else if v <? 0 then -1 else 0) = Z.sgn v.
Proof.
  rewrite Z.gtb_ltb.
  destruct (Z.ltb_spec 0 v); [| destruct (Z.ltb_spec v 0)]; lia.
Qed.

Lemma calculate_speed_at_zero cfg :
  (1 <= num_points cfg)%nat -> 0 <= first_time cfg ->
  calculate_speed cfg 0 = first_speed cfg.
Proof. intros Hn Ht. apply calculate_speed_low; assumption. Qed.

Lemma int64_zero : int64 0 = 0.
Proof. reflexivity. Qed.

(** Truncating division by 1000 keeps a 32-bit value well inside the 32-bit
    range. *)
Lemma quot_1000_small a :
  in_int32 a -> - 2 ^ 31 < Z.quot a 1000 < 2 ^ 31.
Proof.
  unfold in_int32. change (2 ^ 31) with 2147483648. intros Ha.
  pose proof (Z.quot_rem' a 1000) as Hq.
  pose proof (Z.rem_bound_abs a 1000 ltac:(lia)) as Hr.
  lia.
Qed.

(** The conversion of a speed into the emitted value: a positive speed never
    gives 0, whatever the period and whether or not the product wraps. *)
Lemma emitted_value_nonzero speed period dir :
  0 < speed -> dir = 1 \/ dir = -1 ->
  let movement0 := Z.quot (int32 (speed * period)) 1000 in
  let movement :=
    if (movement0 =? 0) && (speed >? 0) then 1 else movement0 in
  1 <= Z.abs (int32 (dir * movement)).
Proof.
  intros Hs Hd movement0 movement.
  assert (Hm : movement <> 0 /\ - 2 ^ 31 < movement < 2 ^ 31).
  { subst movement.
    pose proof (quot_1000_small (int32 (speed * period)) (int32_range _)) as Hq.
    fold movement0 in Hq.
    destruct (Z.eqb_spec movement0 0) as [E | E]; simpl.
    - rewrite Z.gtb_ltb. destruct (Z.ltb_spec 0 speed); [| lia].
      change (2 ^ 31) with 2147483648. lia.
    - split; assumption. }
  destruct Hm as [Hnz Hr]. change (2 ^ 31) with 2147483648 in Hr.
  assert (Hne : int32 (dir * movement) <> 0).
  { apply int32_nonzero; [nia |]. change (2 ^ 32) with 4294967296. nia. }
  lia.
Qed.

Section Handler.

Variable cfg : zip_speed_curve_config.
Variable data : zip_speed_curve_data.
Variable event : input_event.
Variable clk : uptime.

(** An event the filter rejects. *)
Lemma handle_unmatched :
  matched cfg event = false ->
  zip_speed_curve_handle_event cfg data event clk
  = {| ret := 0; data_out := data; event_out := event; log := [] |}.
Proof.
  intros H. unfold zip_speed_curve_handle_event.
  unfold matched in H. apply andb_false_iff in H.
  destruct H as [H | H]; rewrite H; simpl; [| rewrite orb_true_r];
    reflexivity.
Qed.

(** A matched event with value 0. *)
Lemma handle_stop :
  matched cfg event = true -> value event = 0 ->
  let o := zip_speed_curve_handle_event cfg data event clk in
  let x := is_x_axis event in
  ret o = 0 /\ event_out o = event /\ speed_curve_line o = None
  /\ last_direction x (data_out o) = 0
  /\ last_direction (negb x) (data_out o) = last_direction (negb x) data
  /\ start_time (data_out o) = start_time data
  /\ is_active (data_out o)
     = (if last_direction (negb x) data =? 0 then false
        else is_active data).
Proof.
  intros Hm Hv o x. subst o x.
  unfold zip_speed_curve_handle_event, is_x_axis.
  unfold matched in Hm. apply andb_true_iff in Hm. destruct Hm as [H1 H2].
  rewrite H1, H2, Hv. simpl.
  destruct (code event =? 0); simpl.
  - destruct (last_y_direction data =? 0); simpl; repeat split; reflexivity.
  - destruct (last_x_direction data =? 0); simpl; repeat split; reflexivity.
Qed.

(** A matched event with a nonzero value.  Timing is restarted when the
    direction of the axis changed or the timer was off; otherwise the
    stored start time is kept. *)
Lemma handle_moving :
  matched cfg event = true -> value event <> 0 ->
  let o := zip_speed_curve_handle_event cfg data event clk in
  let x := is_x_axis event in
  let dir := Z.sgn (value event) in
  let changed := negb (last_direction x data =? 0)
                 && negb (last_direction x data =? dir) in
  let start := if changed || negb (is_active data)
               then now_start clk else start_time data in
  let elapsed := int64 (now_current clk - start) in
  let speed := calculate_speed cfg elapsed in
  ret o = 0
  /\ speed_curve_line o = Some (elapsed, speed)
  /\ is_active (data_out o) = true
  /\ start_time (data_out o) = start
  /\ last_direction x (data_out o) = dir
  /\ last_direction (negb x) (data_out o) = last_direction (negb x) data
  /\ event_type (event_out o) = event_type event
  /\ code (event_out o) = code event
  /\ (0 < speed -> 1 <= Z.abs (value (event_out o))).
Proof.
  intros Hm Hv o x dir changed start elapsed speed.
  assert (Hdir : dir = 1 \/ dir = -1) by (subst dir; lia).
  subst o x. unfold zip_speed_curve_handle_event.
  unfold matched in Hm. apply andb_true_iff in Hm. destruct Hm as [H1 H2].
  rewrite H1, H2. simpl.
  destruct (Z.eqb_spec (value event) 0) as [E | _]; [contradiction |].
  rewrite current_direction_sgn. fold dir.
  unfold is_x_axis in *. fold changed.
  assert (Hval : forall e,
    0 < calculate_speed cfg e ->
    1 <= Z.abs (int32 (dir *
      (if (Z.quot (int32 (calculate_speed cfg e * trigger_period_ms cfg))
                  1000 =? 0) && (calculate_speed cfg e >? 0)
       then 1
       else Z.quot (int32 (calculate_speed cfg e * trigger_period_ms cfg))
                   1000)))).
  { intros e He. apply emitted_value_nonzero; assumption. }
  subst start elapsed speed.
  destruct changed, (is_active data) eqn:Ha, (code event =? 0) eqn:Hc;
    cbn -[calculate_speed int32 int64 Z.quot Z.mul Z.sgn Z.abs];
    try rewrite Ha;
    cbn -[calculate_speed int32 int64 Z.quot Z.mul Z.sgn Z.abs];
    repeat split; try reflexivity; try exact Ha; apply Hval.
Qed.

End Handler.

(** Restart of the timer: the elapsed time of the call is the distance of its
    two clock readings. *)
Lemma handle_restart cfg data event clk :
  matched cfg event = true -> value event <> 0 ->
  is_active data = false
  \/ (last_direction (is_x_axis event) data <> 0
      /\ last_direction (is_x_axis event) data <> Z.sgn (value event)) ->
  let o := zip_speed_curve_handle_event cfg data event clk in
  let elapsed := int64 (now_current clk - now_start clk) in
  speed_curve_line o = Some (elapsed, calculate_speed cfg elapsed)
  /\ start_time (data_out o) = now_start clk.
Proof.
  intros Hm Hv Hre o elapsed.
  destruct (handle_moving cfg data event clk Hm Hv)
    as (_ & Hline & _ & Hstart & _).
  fold o in Hline, Hstart.
  assert (Hc : negb (last_direction (is_x_axis event) data =? 0)
               && negb (last_direction (is_x_axis event) data
                        =? Z.sgn (value event))
               || negb (is_active data) = true).
  { destruct Hre as [Ha | [H0 H1]].
    - rewrite Ha. apply orb_true_r.
    - apply Z.eqb_neq in H0, H1. rewrite H0, H1. reflexivity. }
  rewrite Hc in Hline, Hstart. split; assumption.
Qed.

(** Continuation: the timer is on and the axis did not reverse. *)
Lemma handle_continue cfg data event clk :
  matched cfg event = true -> value event <> 0 ->
  is_active data = true ->
  last_direction (is_x_axis event) data = 0
  \/ last_direction (is_x_axis event) data = Z.sgn (value event) ->
  let o := zip_speed_curve_handle_event cfg data event clk in
  let elapsed := int64 (now_current clk - start_time data) in
  speed_curve_line o = Some (elapsed, calculate_speed cfg elapsed)
  /\ start_time (data_out o) = start_time data.
Proof.
  intros Hm Hv Ha Hdir o elapsed.
  destruct (handle_moving cfg data event clk Hm Hv)
    as (_ & Hline & _ & Hstart & _).
  fold o in Hline, Hstart.
  assert (Hc : negb (last_direction (is_x_axis event) data =? 0)
               && negb (last_direction (is_x_axis event) data
                        =? Z.sgn (value event))
               || negb (is_active data) = false).
  { rewrite Ha. simpl. rewrite orb_false_r.
    destruct Hdir as [H | H]; apply Z.eqb_eq in H; rewrite H.
    - reflexivity.
    - apply andb_false_r. }
  rewrite Hc in Hline, Hstart. split; assumption.
Qed.

Lemma at_rest_directions d x :
  last_direction x d = 0 -> last_direction (negb x) d = 0 ->
  last_x_direction d = 0 /\ last_y_direction d = 0.
Proof. destruct x; simpl; intros H1 H2; split; assumption. Qed.

(** A quiet event leaves a resting processor at rest. *)
Lemma quiet_keeps_rest cfg d e :
  at_rest d -> quiet cfg e ->
  at_rest (data_out (zip_speed_curve_handle_event cfg d (fst e) (snd e))).
Proof.
  intros (Ha & Hx & Hy) Hq.
  destruct (matched cfg (fst e)) eqn:Hm.
  - destruct Hq as [Hq | Hq]; [congruence |].
    destruct (handle_stop cfg d (fst e) (snd e) Hm Hq)
      as (_ & _ & _ & H1 & H2 & _ & H3).
    assert (Hother : last_direction (negb (is_x_axis (fst e))) d = 0)
      by (destruct (is_x_axis (fst e)); simpl; assumption).
    rewrite Hother in H2, H3. simpl in H3.
    destruct (at_rest_directions _ _ H1 H2) as [Hx' Hy'].
    repeat split; assumption.
  - rewrite handle_unmatched by exact Hm. simpl. repeat split; assumption.
Qed.

Lemma run_quiet_keeps_rest cfg mid :
  Forall (quiet cfg) mid ->
  forall d, at_rest d -> at_rest (fst (run cfg d mid)).
Proof.
  induction 1 as [| [e clk] mid Hq _ IH]; intros d Hd.
  - exact Hd.
  - simpl.
    pose proof (quiet_keeps_rest cfg d (e, clk) Hd Hq) as Hd'. simpl in Hd'.
    specialize (IH _ Hd').
    destruct (run cfg (data_out (zip_speed_curve_handle_event cfg d e clk)) mid)
      as [d' os]. exact IH.
Qed.

(** The interpolation never divides by zero, sorted table or not: the loop
    stops at a segment whose right end is above its left end. *)
Lemma time_delta_nonzero cfg e :
  points_in_int32 cfg = true ->
  first_time cfg < e -> e < last_time cfg ->
  exists j, segment_loop cfg e 0 (num_points cfg - 1)
            = Some (interpolate cfg e j)
            /\ int32 (time_at cfg (j + 1) - time_at cfg j) <> 0.
Proof.
  intros Hp Hlo Hhi.
  destruct (calculate_speed_inner cfg e Hlo Hhi) as (j & Hj & Hseg & Hl & _).
  exists j. split; [exact Hl |].
  pose proof (cell_in_int32 cfg (j * 2) Hp ltac:(lia)) as H0.
  pose proof (cell_in_int32 cfg ((j + 1) * 2) Hp ltac:(lia)) as H1.
  fold (time_at cfg j) in H0. fold (time_at cfg (j + 1)) in H1.
  unfold in_int32 in *. change (2 ^ 31) with 2147483648 in *.
  apply int32_nonzero; [lia |]. change (2 ^ 32) with 4294967296. lia.
Qed.

(* ------------------------------------------------------------------ *)
(** ** Properties of the handler *)

(** C9.  An event whose type differs from the configured type, or whose code
    is not among the configured codes, is passed through: the handler returns
    0, the event is unmodified, and the runtime data (activity flag, start
    times, last directions, remainders) is the same record as before. *)
Theorem unmatched_event_passes_through cfg data event clk :
  event_type event <> type cfg \/ ~ In (code event) (codes cfg) ->
  let o := zip_speed_curve_handle_event cfg data event clk in
  ret o = 0 /\ event_out o = event /\ data_out o = data /\ log o = [].
Proof.
  intros H o. subst o.
  rewrite handle_unmatched by (apply matched_false; exact H).
  repeat split; reflexivity.
Qed.

Lemma unmatched_event_passes_through_witness :
  let o := zip_speed_curve_handle_event example_cfg
             (fresh_data example_cfg)
             {| event_type := 2; code := 8; value := 7 |} (at_ms 40) in
  ret o = 0
  /\ event_out o = {| event_type := 2; code := 8; value := 7 |}
  /\ data_out o = fresh_data example_cfg /\ log o = [].
Proof.
  apply (unmatched_event_passes_through example_cfg (fresh_data example_cfg)
           {| event_type := 2; code := 8; value := 7 |} (at_ms 40)).
  right. simpl. intros [H | [H | H]]; [discriminate | discriminate | exact H].
Defined.

(** C7.  A matched event with a nonzero value is shaped at some elapsed time
    into a speed [calculate_speed cfg elapsed]; when that speed is strictly
    positive the emitted value has magnitude at least 1, never 0.  The handler
    does not read [track_remainders], so this is its behaviour with the flag
    off (and on). *)
Theorem minimum_motion cfg data event clk :
  matched cfg event = true -> value event <> 0 ->
  let o := zip_speed_curve_handle_event cfg data event clk in
  exists elapsed,
    logged_elapsed o = Some elapsed
    /\ logged_speed o = Some (calculate_speed cfg elapsed)
    /\ (0 < calculate_speed cfg elapsed ->
        1 <= Z.abs (value (event_out o)) /\ value (event_out o) <> 0).
Proof.
  intros Hm Hv o.
  destruct (handle_moving cfg data event clk Hm Hv)
    as (_ & Hline & _ & _ & _ & _ & _ & _ & Hval).
  fold o in Hline, Hval.
  eexists. unfold logged_elapsed, logged_speed. rewrite Hline. simpl.
  split; [reflexivity |]. split; [reflexivity |].
  intros Hs. specialize (Hval Hs). lia.
Qed.

Lemma minimum_motion_witness :
  let o := zip_speed_curve_handle_event example_cfg
             (fresh_data example_cfg) (rel_x 5) (at_ms 0) in
  exists elapsed,
    logged_elapsed o = Some elapsed
    /\ logged_speed o = Some (calculate_speed example_cfg elapsed)
    /\ (0 < calculate_speed example_cfg elapsed ->
        1 <= Z.abs (value (event_out o)) /\ value (event_out o) <> 0).
Proof.
  apply (minimum_motion example_cfg (fresh_data example_cfg)
           (rel_x 5) (at_ms 0)); [reflexivity | discriminate].
Defined.

(** C8.  A nonzero event whose sign differs from the nonzero last direction
    of its axis restarts the timing inside the same call: the start time
    becomes the clock reading of the call and the elapsed time of the event is
    the distance of the call's two clock readings, 0 when the clock does not
    tick in between, and then the event receives the first point's speed (for
    a table with a point and a first time that is not negative).  On one axis
    the values +5, +5, -5 put the third event at elapsed 0 whatever the
    times of the three calls; at times 0, 16, 32 on a fresh processor the
    elapsed times are 0, 16, 0. *)
Theorem direction_reversal_restarts_timing :
  (forall cfg data event clk,
      matched cfg event = true -> value event <> 0 ->
      last_direction (is_x_axis event) data <> 0 ->
      last_direction (is_x_axis event) data <> Z.sgn (value event) ->
      let o := zip_speed_curve_handle_event cfg data event clk in
      start_time (data_out o) = now_start clk
      /\ logged_elapsed o = Some (int64 (now_current clk - now_start clk))
      /\ (now_current clk = now_start clk ->
          logged_elapsed o = Some 0
          /\ ((1 <= num_points cfg)%nat -> 0 <= first_time cfg ->
              logged_speed o = Some (first_speed cfg))))
  /\ (forall cfg data c t1 t2 t3,
        code_matches cfg c = true ->
        let ev v := {| event_type := type cfg; code := c; value := v |} in
        let os := snd (run cfg data [(ev 5, at_ms t1); (ev 5, at_ms t2);
                                     (ev (-5), at_ms t3)]) in
        nth 2 (map logged_elapsed os) None = Some 0)
  /\ map logged_elapsed
       (snd (run example_cfg (fresh_data example_cfg)
               [(rel_x 5, at_ms 0); (rel_x 5, at_ms 16);
                (rel_x (-5), at_ms 32)]))
     = [Some 0; Some 16; Some 0].
Proof.
  split; [| split; [| reflexivity]].
  - intros cfg data event clk Hm Hv H0 H1 o.
    destruct (handle_restart cfg data event clk Hm Hv (or_intror (conj H0 H1)))
      as [Hline Hstart].
    fold o in Hline, Hstart.
    unfold logged_elapsed, logged_speed. rewrite Hline. simpl.
    split; [exact Hstart |]. split; [reflexivity |].
    intros Hclk. rewrite Hclk, Z.sub_diag, int64_zero.
    split; [reflexivity |].
    intros Hn Ht. rewrite calculate_speed_at_zero by assumption. reflexivity.
  - intros cfg data c t1 t2 t3 Hc ev os.
    assert (Hm : forall v, matched cfg (ev v) = true).
    { intros v. unfold matched, ev. simpl. rewrite Z.eqb_refl, Hc.
      reflexivity. }
    subst os. simpl.
    set (d1 := data_out (zip_speed_curve_handle_event cfg data (ev 5)
                           (at_ms t1))).
    destruct (handle_moving cfg d1 (ev 5) (at_ms t2) (Hm 5) ltac:(discriminate))
      as (_ & _ & _ & _ & Hdir & _).
    set (d2 := data_out (zip_speed_curve_handle_event cfg d1 (ev 5)
                           (at_ms t2))) in *.
    destruct (handle_restart cfg d2 (ev (-5)) (at_ms t3) (Hm (-5))
                ltac:(discriminate)) as [Hline _].
    { right. change (is_x_axis (ev (-5))) with (is_x_axis (ev 5)).
      rewrite Hdir. simpl. split; discriminate. }
    unfold logged_elapsed. rewrite Hline. simpl.
    rewrite Z.sub_diag. reflexivity.
Qed.

Lemma direction_reversal_restarts_timing_witness :
  let o := zip_speed_curve_handle_event example_cfg
             (set_last_y_direction 1
                (set_is_active true (fresh_data example_cfg)))
             (rel_y (-3)) (at_ms 700) in
  logged_elapsed o = Some 0 /\ logged_speed o = Some 50.
Proof.
  pose proof (proj1 direction_reversal_restarts_timing example_cfg
                (set_last_y_direction 1
                   (set_is_active true (fresh_data example_cfg)))
                (rel_y (-3)) (at_ms 700)
                eq_refl ltac:(discriminate) ltac:(discriminate)
                ltac:(discriminate)) as (_ & _ & H).
  destruct (H eq_refl) as [He Hs].
  split; [exact He |].
  apply Hs; [vm_compute; lia | discriminate].
Defined.

(** Against C1 as stated.  Y moves at time 0; X reports 0 at time 100; X moves
    at time 200.  [last_y_direction] is still 1 at the stop of X, so the
    shared flag stays set, and the nonzero X event that follows the stop is
    computed at elapsed 200 with speed 150, not at elapsed 0 with the first
    point's speed 50. *)
Lemma stop_of_one_axis_keeps_timer_running :
  let os := snd (run example_cfg (fresh_data example_cfg)
                   [(rel_y 5, at_ms 0); (rel_x 0, at_ms 100);
                    (rel_x 5, at_ms 200)]) in
  map logged_elapsed os = [Some 0; None; Some 200]
  /\ map logged_speed os = [Some 50; None; Some 150]
  /\ first_speed example_cfg = 50
  /\ nth 2 (map logged_elapsed os) None <> Some 0
  /\ nth 2 (map logged_speed os) None <> Some (first_speed example_cfg).
Proof.
  vm_compute. repeat split; try reflexivity; discriminate.
Qed.

(** C1, as the code has it.  The activity flag and the start time are shared
    by the two axes.  After a zero-value event on one axis:
    - if the last direction of the other axis is 0, the flag is cleared, and
      after any number of events that are filtered out or are stops, the next
      matched nonzero event (on either axis) is computed at elapsed 0 when the
      clock does not tick during its call, and receives the first point's
      speed (table with a point, first time not negative);
    - if the last direction of the other axis is not 0 and timing was on, the
      timer keeps running: a nonzero event on the stopped axis that follows
      immediately is computed from the old start time. *)
Theorem stop_of_both_axes_resets_timing cfg data ev0 clk0 ev1 clk1 :
  matched cfg ev0 = true -> value ev0 = 0 ->
  matched cfg ev1 = true -> value ev1 <> 0 ->
  let d1 := data_out (zip_speed_curve_handle_event cfg data ev0 clk0) in
  (last_direction (negb (is_x_axis ev0)) data = 0 ->
   forall mid, Forall (quiet cfg) mid ->
   now_current clk1 = now_start clk1 ->
   let o := zip_speed_curve_handle_event cfg (fst (run cfg d1 mid)) ev1 clk1 in
   is_active d1 = false
   /\ logged_elapsed o = Some 0
   /\ ((1 <= num_points cfg)%nat -> 0 <= first_time cfg ->
       logged_speed o = Some (first_speed cfg)))
  /\ (last_direction (negb (is_x_axis ev0)) data <> 0 ->
      is_active data = true ->
      is_x_axis ev1 = is_x_axis ev0 ->
      let o := zip_speed_curve_handle_event cfg d1 ev1 clk1 in
      is_active d1 = true
      /\ logged_elapsed o
         = Some (int64 (now_current clk1 - start_time data))).
Proof.
  intros Hm0 Hv0 Hm1 Hv1 d1.
  destruct (handle_stop cfg data ev0 clk0 Hm0 Hv0)
    as (_ & _ & _ & Hx & Hother & Hstart & Hact).
  fold d1 in Hx, Hother, Hstart, Hact.
  split.
  - intros Hidle mid Hmid Hclk o.
    rewrite Hidle in Hother, Hact. simpl in Hact.
    assert (Hrest : at_rest d1).
    { destruct (at_rest_directions _ _ Hx Hother). repeat split; assumption. }
    pose proof (run_quiet_keeps_rest cfg mid Hmid d1 Hrest) as (Ha & _ & _).
    destruct (handle_restart cfg (fst (run cfg d1 mid)) ev1 clk1 Hm1 Hv1
                (or_introl Ha)) as [Hline _].
    fold o in Hline.
    unfold logged_elapsed, logged_speed. rewrite Hline. simpl.
    rewrite Hclk, Z.sub_diag, int64_zero.
    split; [exact Hact |]. split; [reflexivity |].
    intros Hn Ht. rewrite calculate_speed_at_zero by assumption. reflexivity.
  - intros Hbusy Ha Hax o.
    apply Z.eqb_neq in Hbusy. rewrite Hbusy, Ha in Hact.
    destruct (handle_continue cfg d1 ev1 clk1 Hm1 Hv1 Hact) as [Hline _].
    { left. rewrite Hax. exact Hx. }
    fold o in Hline.
    unfold logged_elapsed. rewrite Hline, Hstart. simpl.
    split; [exact Hact | reflexivity].
Qed.

Lemma stop_of_both_axes_resets_timing_witness :
  let d0 := data_out (zip_speed_curve_handle_event example_cfg
                        (fresh_data example_cfg) (rel_x 5) (at_ms 0)) in
  let d1 := data_out (zip_speed_curve_handle_event example_cfg d0
                        (rel_x 0) (at_ms 100)) in
  let o := zip_speed_curve_handle_event example_cfg
             (fst (run example_cfg d1 [(rel_y 0, at_ms 150)]))
             (rel_x 5) (at_ms 200) in
  is_active d1 = false /\ logged_elapsed o = Some 0
  /\ logged_speed o = Some 50.
Proof.
  intros d0 d1 o.
  pose proof (stop_of_both_axes_resets_timing example_cfg d0
                (rel_x 0) (at_ms 100) (rel_x 5) (at_ms 200)
                eq_refl eq_refl eq_refl ltac:(discriminate)) as [H _].
  destruct (H eq_refl [(rel_y 0, at_ms 150)]) as (Ha & He & Hs).
  - constructor; [right; reflexivity | constructor].
  - reflexivity.
  - split; [exact Ha |]. split; [exact He |].
    apply Hs; [vm_compute; lia | discriminate].
Defined.

(** No function reads [track_remainders]. *)
Lemma segment_loop_track b cfg e n :
  forall i, segment_loop (with_track_remainders b cfg) e i n
            = segment_loop cfg e i n.
Proof.
  induction n as [| n IH]; intros i; [reflexivity |].
  cbn [segment_loop]. rewrite IH. reflexivity.
Qed.

Lemma calculate_speed_track b cfg e :
  calculate_speed (with_track_remainders b cfg) e = calculate_speed cfg e.
Proof.
  unfold calculate_speed. rewrite segment_loop_track. reflexivity.
Qed.

Lemma handle_event_track b cfg data event clk :
  zip_speed_curve_handle_event (with_track_remainders b cfg) data event clk
  = zip_speed_curve_handle_event cfg data event clk.
Proof.
  unfold zip_speed_curve_handle_event. cbv zeta.
  rewrite ?calculate_speed_track. reflexivity.
Qed.

(** C2, on the code.  [track_remainders] is never read: the instantiation
    macro leaves the field unset, and the handler computes the same outcome
    whatever its value; the remainders of the runtime data are never written.
    On an instance declared with [track-remainders], a constant speed of 50
    px/s and a 16 ms period, each of ten consecutive X events emits 1 (the
    forced minimum), not truncate(0.8 + remainder): the sum is 10, whereas
    50 * 16 / 1000 * 10 = 8, more than 1 away. *)
Theorem track_remainders_is_ignored :
  (forall p, track_remainders (ZIP_SPEED_CURVE_INST p) = false)
  /\ (forall b cfg data event clk,
         zip_speed_curve_handle_event (with_track_remainders b cfg)
           data event clk
         = zip_speed_curve_handle_event cfg data event clk)
  /\ (let cfg := with_track_remainders true
                   (ZIP_SPEED_CURVE_INST remainder_props) in
      let r := run cfg (fresh_data cfg) ten_steps in
      map logged_speed (snd r) = repeat (Some 50) 10
      /\ emitted (snd r) = repeat 1 10
      /\ total (emitted (snd r)) = 10
      /\ 1000 * total (emitted (snd r)) - 50 * 16 * 10 = 2000
      /\ x_remainder (fst r) = 0 /\ y_remainder (fst r) = 0).
Proof.
  split; [| split].
  - intros p. reflexivity.
  - intros b cfg data event clk. apply handle_event_track.
  - vm_compute. repeat split; reflexivity.
Qed.

(** Against C3 as stated.  A configuration with decreasing times, no code and
    a zero trigger period is accepted: initialisation returns 0. *)
Lemma malformed_configuration_is_accepted :
  strictly_increasing_times malformed_cfg = false
  /\ codes_len malformed_cfg = 0%nat
  /\ trigger_period_ms malformed_cfg <= 0
  /\ well_formed malformed_cfg = false
  /\ fst (zip_speed_curve_init malformed_cfg zero_data) = 0.
Proof.
  vm_compute. repeat split; try reflexivity; discriminate.
Qed.

(** C3, as the code has it.  Initialisation validates nothing: for every
    configuration it returns 0 and leaves the processor idle (timing off,
    start time 0, both last directions 0, the other fields untouched).  The
    handler returns 0 on every call, and on every table of 32-bit cells,
    sorted or not, an interpolation that is executed divides by a nonzero
    time difference. *)
Theorem init_accepts_every_configuration :
  (forall cfg data,
      let r := zip_speed_curve_init cfg data in
      fst r = 0
      /\ is_active (snd r) = false /\ start_time (snd r) = 0
      /\ last_x_direction (snd r) = 0 /\ last_y_direction (snd r) = 0
      /\ x_start_time (snd r) = x_start_time data
      /\ y_start_time (snd r) = y_start_time data
      /\ x_remainder (snd r) = x_remainder data
      /\ y_remainder (snd r) = y_remainder data)
  /\ (forall cfg data event clk,
         ret (zip_speed_curve_handle_event cfg data event clk) = 0)
  /\ (forall cfg e,
         points_in_int32 cfg = true ->
         first_time cfg < e -> e < last_time cfg ->
         exists j, segment_loop cfg e 0 (num_points cfg - 1)
                   = Some (interpolate cfg e j)
                   /\ int32 (time_at cfg (j + 1) - time_at cfg j) <> 0).
Proof.
  split; [| split].
  - intros cfg data r. repeat split; reflexivity.
  - intros cfg data event clk.
    destruct (matched cfg event) eqn:Hm.
    + destruct (Z.eq_dec (value event) 0) as [Hv | Hv].
      * apply (handle_stop cfg data event clk Hm Hv).
      * apply (handle_moving cfg data event clk Hm Hv).
    + rewrite handle_unmatched by exact Hm. reflexivity.
  - apply time_delta_nonzero.
Qed.

Lemma init_accepts_every_configuration_witness :
  fst (zip_speed_curve_init malformed_cfg zero_data) = 0
  /\ exists j,
       segment_loop unsorted_cfg 60 0 (num_points unsorted_cfg - 1)
       = Some (interpolate unsorted_cfg 60 j)
       /\ int32 (time_at unsorted_cfg (j + 1) - time_at unsorted_cfg j) <> 0.
Proof.
  split.
  - apply (proj1 init_accepts_every_configuration malformed_cfg zero_data).
  - apply (proj2 (proj2 init_accepts_every_configuration) unsorted_cfg 60);
      reflexivity.
Defined.

(* ------------------------------------------------------------------ *)
(** ** More on the handler and the interpolator *)

(** The emitted value of a moving event, from the speed the call logged. *)
Lemma handle_moving_value cfg data event clk :
  matched cfg event = true -> value event <> 0 ->
  let o := zip_speed_curve_handle_event cfg data event clk in
  exists elapsed,
    speed_curve_line o = Some (elapsed, calculate_speed cfg elapsed)
    /\ value (event_out o)
       = int32 (Z.sgn (value event)
                * movement_of cfg (calculate_speed cfg elapsed)).
Proof.
  intros Hm Hv o. subst o. unfold zip_speed_curve_handle_event.
  unfold matched in Hm. apply andb_true_iff in Hm. destruct Hm as [H1 H2].
  rewrite H1, H2. simpl.
  destruct (Z.eqb_spec (value event) 0) as [E | _]; [contradiction |].
  rewrite current_direction_sgn.
  set (changed := negb (last_direction (code event =? 0) data =? 0)
                  && negb (last_direction (code event =? 0) data
                           =? Z.sgn (value event))).
  destruct changed, (is_active data) eqn:Ha, (code event =? 0) eqn:Hc;
    cbn -[calculate_speed int32 int64 Z.quot Z.mul Z.sgn Z.abs movement_of];
    try rewrite Ha;
    cbn -[calculate_speed int32 int64 Z.quot Z.mul Z.sgn Z.abs movement_of];
    eexists; split; reflexivity.
Qed.

(** The two projections of a run that starts with one more event. *)
Lemma run_cons cfg d e clk rest :
  run cfg d ((e, clk) :: rest)
  = (fst (run cfg (data_out (zip_speed_curve_handle_event cfg d e clk)) rest),
     zip_speed_curve_handle_event cfg d e clk
     :: snd (run cfg (data_out (zip_speed_curve_handle_event cfg d e clk))
               rest)).
Proof.
  simpl.
  destruct (run cfg (data_out (zip_speed_curve_handle_event cfg d e clk)) rest).
  reflexivity.
Qed.

(** [movement_of] for a speed that is not negative and whose product with
    the period fits in 32 bits. *)
Lemma movement_of_exact cfg speed :
  0 <= speed -> 0 <= trigger_period_ms cfg ->
  speed * trigger_period_ms cfg < 2 ^ 31 ->
  movement_of cfg speed
  = if speed =? 0 then 0
    else Z.max 1 (speed * trigger_period_ms cfg / 1000).
Proof.
  intros Hs Hp Hr. unfold movement_of.
  rewrite int32_id by (unfold in_int32; change (2 ^ 31) with 2147483648 in *;
                       nia).
  rewrite Z.quot_div_nonneg by nia.
  pose proof (Z.div_pos (speed * trigger_period_ms cfg) 1000
                ltac:(nia) ltac:(lia)) as Hq.
  destruct (Z.eqb_spec speed 0) as [E | E].
  - subst speed. reflexivity.
  - rewrite Z.gtb_ltb.
    destruct (Z.ltb_spec 0 speed); [| lia].
    destruct (Z.eqb_spec (speed * trigger_period_ms cfg / 1000) 0); simpl; lia.
Qed.

Lemma movement_of_range cfg speed :
  0 <= speed -> 0 <= trigger_period_ms cfg ->
  speed * trigger_period_ms cfg < 2 ^ 31 ->
  0 <= movement_of cfg speed < 2 ^ 31.
Proof.
  intros Hs Hp Hr. rewrite movement_of_exact by assumption.
  change (2 ^ 31) with 2147483648 in *.
  pose proof (Z.div_pos (speed * trigger_period_ms cfg) 1000
                ltac:(nia) ltac:(lia)) as Hq.
  assert (speed * trigger_period_ms cfg / 1000 < 2147483648).
  { apply Z.div_lt_upper_bound; lia. }
  destruct (speed =? 0); lia.
Qed.

Lemma movement_of_mono cfg s1 s2 :
  0 <= s1 <= s2 -> 0 <= trigger_period_ms cfg ->
  s2 * trigger_period_ms cfg < 2 ^ 31 ->
  movement_of cfg s1 <= movement_of cfg s2.
Proof.
  intros Hs Hp Hr.
  rewrite !movement_of_exact by (try assumption; nia).
  pose proof (Z.div_le_mono (s1 * trigger_period_ms cfg)
                (s2 * trigger_period_ms cfg) 1000 ltac:(lia) ltac:(nia)) as Hm.
  pose proof (Z.div_pos (s1 * trigger_period_ms cfg) 1000
                ltac:(nia) ltac:(lia)) as Hq.
  destruct (Z.eqb_spec s1 0), (Z.eqb_spec s2 0); lia.
Qed.

(** The magnitude of the emitted value is the movement. *)
Lemma emitted_abs cfg speed dir :
  dir = 1 \/ dir = -1 ->
  0 <= speed -> 0 <= trigger_period_ms cfg ->
  speed * trigger_period_ms cfg < 2 ^ 31 ->
  int32 (dir * movement_of cfg speed) = dir * movement_of cfg speed.
Proof.
  intros Hd Hs Hp Hr.
  pose proof (movement_of_range cfg speed Hs Hp Hr) as Hm.
  apply int32_id. unfold in_int32.
  change (2 ^ 31) with 2147483648 in *. nia.
Qed.

Lemma lerp_between_down t0 s0 t1 s1 e :
  s1 <= s0 -> t0 <= e <= t1 -> t0 < t1 ->
  s1 <= lerp t0 s0 t1 s1 e <= s0.
Proof.
  intros Hs He Hlt. unfold lerp.
  pose proof (quot_scale_nonpos (s1 - s0) (e - t0) (t1 - t0)
                ltac:(lia) ltac:(lia) ltac:(lia)).
  lia.
Qed.

(** The result lies between the speeds of two points of the table. *)
Lemma calculate_speed_between_points cfg e :
  arith_in_range cfg = true -> (1 <= num_points cfg)%nat ->
  exists i k, (i < num_points cfg)%nat /\ (k < num_points cfg)%nat
              /\ speed_of cfg i <= calculate_speed cfg e <= speed_of cfg k.
Proof.
  intros Hr Hn.
  destruct (Z_le_gt_dec e (first_time cfg)) as [Hlo | Hlo].
  - rewrite calculate_speed_low by assumption.
    exists 0%nat, 0%nat. unfold first_speed. repeat split; lia.
  - destruct (Z_le_gt_dec (last_time cfg) e) as [Hhi | Hhi].
    + rewrite calculate_speed_high by (assumption || lia).
      exists (num_points cfg - 1)%nat, (num_points cfg - 1)%nat.
      unfold last_speed. repeat split; lia.
    + destruct (calculate_speed_inner_lerp cfg e Hr) as (j & Hj & Hseg & Hres);
        try lia.
      rewrite Hres.
      destruct (Z_le_gt_dec (speed_of cfg j) (speed_of cfg (j + 1))) as [U | D].
      * pose proof (lerp_between_up (time_at cfg j) (speed_of cfg j)
                      (time_at cfg (j + 1)) (speed_of cfg (j + 1)) e
                      U ltac:(lia) ltac:(lia)).
        exists j, (j + 1)%nat. repeat split; lia.
      * pose proof (lerp_between_down (time_at cfg j) (speed_of cfg j)
                      (time_at cfg (j + 1)) (speed_of cfg (j + 1)) e
                      ltac:(lia) ltac:(lia) ltac:(lia)).
        exists (j + 1)%nat, j. repeat split; lia.
Qed.

(** At the time of a point the result is the speed of that point. *)
Lemma calculate_speed_at_point cfg i :
  strictly_increasing_times cfg = true -> arith_in_range cfg = true ->
  (i < num_points cfg)%nat ->
  calculate_speed cfg (time_at cfg i) = speed_of cfg i.
Proof.
  intros Hs Hr Hi.
  destruct (Nat.eq_dec i 0) as [E0 | E0].
  { subst i. apply calculate_speed_low; [lia |]. unfold first_time. lia. }
  assert (Hfirst : first_time cfg < time_at cfg i).
  { apply times_lt; [exact Hs | lia | exact Hi]. }
  destruct (Nat.eq_dec i (num_points cfg - 1)) as [El | El].
  { rewrite calculate_speed_high; try lia.
    - unfold last_speed. rewrite El. reflexivity.
    - unfold last_time. rewrite <- El. lia. }
  assert (Hlast : time_at cfg i < last_time cfg).
  { apply times_lt; [exact Hs | lia | lia]. }
  destruct (calculate_speed_inner_lerp cfg (time_at cfg i) Hr Hfirst Hlast)
    as (j & Hj & Hseg & Hres).
  assert (Hji : (j < i)%nat) by (apply (times_lt_inv cfg Hs); lia).
  assert (Hij : (i = j + 1)%nat).
  { destruct (Nat.eq_dec i (j + 1)) as [E | E]; [exact E |].
    pose proof (times_lt cfg (j + 1) i Hs ltac:(lia) Hi). lia. }
  rewrite Hres, Hij. apply lerp_right. lia.
Qed.

(** [calculate_speed] reads only the cells of whole points. *)
Lemma segment_loop_ext cfg1 cfg2 e n :
  forall i,
    (forall k, (k < 2 * (i + n + 1))%nat ->
               curve_point cfg1 k = curve_point cfg2 k) ->
    segment_loop cfg1 e i n = segment_loop cfg2 e i n.
Proof.
  induction n as [| n IH]; intros i Hk; [reflexivity |].
  cbn [segment_loop]. unfold interpolate.
  rewrite !(Hk (i * 2)%nat), !(Hk ((i + 1) * 2)%nat),
    !(Hk (i * 2 + 1)%nat), !(Hk ((i + 1) * 2 + 1)%nat) by lia.
  rewrite (IH (S i)); [reflexivity |].
  intros k Hlt. apply Hk. lia.
Qed.

Lemma calculate_speed_ext cfg1 cfg2 e :
  num_points cfg1 = num_points cfg2 ->
  (forall k, (k < 2 * num_points cfg1)%nat ->
             curve_point cfg1 k = curve_point cfg2 k) ->
  calculate_speed cfg1 e = calculate_speed cfg2 e.
Proof.
  intros Hn Hk. unfold calculate_speed. rewrite <- Hn.
  destruct (Nat.eqb_spec (num_points cfg1) 0) as [E | E]; [reflexivity |].
  rewrite <- !(Hk 0%nat), <- !(Hk 1%nat),
    <- !(Hk ((num_points cfg1 - 1) * 2)%nat),
    <- !(Hk ((num_points cfg1 - 1) * 2 + 1)%nat) by lia.
  rewrite (segment_loop_ext cfg1 cfg2 e (num_points cfg1 - 1) 0);
    [reflexivity |].
  intros k Hlt. apply Hk. lia.
Qed.

(** Order of the results on a sorted table with non-decreasing speeds. *)
Lemma calculate_speed_le cfg e1 e2 :
  strictly_increasing_times cfg = true ->
  non_decreasing_speeds cfg = true ->
  arith_in_range cfg = true ->
  (1 <= num_points cfg)%nat ->
  e1 <= e2 ->
  first_speed cfg <= calculate_speed cfg e1
  /\ calculate_speed cfg e1 <= calculate_speed cfg e2
  /\ calculate_speed cfg e2 <= last_speed cfg.
Proof.
  intros Hs Hm Hr Hn Hle.
  pose proof (calculate_speed_bounds cfg Hm e1 Hr Hn) as B1.
  pose proof (calculate_speed_bounds cfg Hm e2 Hr Hn) as B2.
  split; [lia |]. split; [| lia].
  destruct (Z_le_gt_dec e1 (first_time cfg)) as [Hlo | Hlo].
  - rewrite (calculate_speed_low cfg e1) by assumption. lia.
  - destruct (Z_le_gt_dec (last_time cfg) e2) as [Hhi | Hhi].
    + rewrite (calculate_speed_high cfg e2) by (assumption || lia). lia.
    + apply calculate_speed_inner_mono; try assumption; lia.
Qed.

(** The handler uses the configuration through its type, the code test, the
    period and [calculate_speed] only. *)
Lemma handle_event_ext cfg1 cfg2 data event clk :
  type cfg1 = type cfg2 ->
  trigger_period_ms cfg1 = trigger_period_ms cfg2 ->
  (forall c, code_matches cfg1 c = code_matches cfg2 c) ->
  (forall e, calculate_speed cfg1 e = calculate_speed cfg2 e) ->
  zip_speed_curve_handle_event cfg1 data event clk
  = zip_speed_curve_handle_event cfg2 data event clk.
Proof.
  intros Ht Hp Hc Hs. unfold zip_speed_curve_handle_event. cbv zeta.
  rewrite Ht, Hp, Hc. rewrite !Hs. reflexivity.
Qed.

Lemma run_ext cfg1 cfg2 evs :
  (forall data event clk,
      zip_speed_curve_handle_event cfg1 data event clk
      = zip_speed_curve_handle_event cfg2 data event clk) ->
  forall data, run cfg1 data evs = run cfg2 data evs.
Proof.
  intros H. induction evs as [| [e clk] rest IH]; intros data; [reflexivity |].
  rewrite !run_cons, H, IH. reflexivity.
Qed.

(* ------------------------------------------------------------------ *)
(** ** Further properties *)

(** X1.  An instance without codes is inert: over any stream of events every
    event comes out as it went in, nothing is logged, and the runtime data
    does not change. *)
Theorem empty_codes_make_instance_inert cfg :
  codes cfg = [] ->
  forall evs data,
    fst (run cfg data evs) = data
    /\ map event_out (snd (run cfg data evs)) = map fst evs
    /\ Forall (fun o => log o = [] /\ ret o = 0) (snd (run cfg data evs)).
Proof.
  intros Hc.
  assert (Hm : forall e, matched cfg e = false).
  { intros e. unfold matched, code_matches. rewrite Hc. apply andb_false_r. }
  induction evs as [| [e clk] rest IH]; intros data.
  - repeat split. constructor.
  - rewrite run_cons, handle_unmatched by apply Hm. simpl.
    destruct (IH data) as (H1 & H2 & H3).
    rewrite H1, H2. repeat split. constructor; [split; reflexivity | exact H3].
Qed.

Lemma empty_codes_make_instance_inert_witness :
  fst (run malformed_cfg zero_data [(rel_x 5, at_ms 0); (rel_y 0, at_ms 9)])
  = zero_data
  /\ map event_out
       (snd (run malformed_cfg zero_data
               [(rel_x 5, at_ms 0); (rel_y 0, at_ms 9)]))
     = map fst [(rel_x 5, at_ms 0); (rel_y 0, at_ms 9)]
  /\ Forall (fun o => log o = [] /\ ret o = 0)
       (snd (run malformed_cfg zero_data
               [(rel_x 5, at_ms 0); (rel_y 0, at_ms 9)])).
Proof.
  apply (empty_codes_make_instance_inert malformed_cfg); reflexivity.
Defined.

(** X2.  Only the set of codes matters: a code list with the same members,
    in any order and with any repetitions, gives the same outcome for every
    call and the same result for every stream. *)
Theorem codes_matter_as_a_set cfg cs :
  (forall c, In c cs <-> In c (codes cfg)) ->
  (forall data event clk,
      zip_speed_curve_handle_event (with_codes cs cfg) data event clk
      = zip_speed_curve_handle_event cfg data event clk)
  /\ (forall evs data, run (with_codes cs cfg) data evs = run cfg data evs).
Proof.
  intros Hset.
  assert (H : forall data event clk,
             zip_speed_curve_handle_event (with_codes cs cfg) data event clk
             = zip_speed_curve_handle_event cfg data event clk).
  { intros data event clk. apply handle_event_ext; try reflexivity.
    - intros c. apply eq_true_iff_eq.
      rewrite !code_matches_In. simpl. apply Hset.
    - intros e. apply calculate_speed_ext; reflexivity. }
  split; [exact H |].
  intros evs data. apply run_ext. exact H.
Qed.

Lemma codes_matter_as_a_set_witness :
  zip_speed_curve_handle_event (with_codes [1; 0; 1] example_cfg)
    (fresh_data example_cfg) (rel_y 4) (at_ms 3)
  = zip_speed_curve_handle_event example_cfg
      (fresh_data example_cfg) (rel_y 4) (at_ms 3).
Proof.
  apply (proj1 (codes_matter_as_a_set example_cfg [1; 0; 1]
                  ltac:(simpl; tauto))).
Defined.

(** X3.  With fewer than two cells in the table there is no point:
    [calculate_speed] is 0 everywhere and every matched nonzero event is
    emitted with value 0, whatever its own value and the period. *)
Theorem empty_curve_swallows_motion cfg data event clk :
  (curve_points_len cfg < 2)%nat ->
  matched cfg event = true -> value event <> 0 ->
  let o := zip_speed_curve_handle_event cfg data event clk in
  (forall e, calculate_speed cfg e = 0)
  /\ logged_speed o = Some 0
  /\ value (event_out o) = 0.
Proof.
  intros Hlen Hm Hv o.
  assert (Hz : forall e, calculate_speed cfg e = 0).
  { intros e. apply calculate_speed_empty. unfold num_points.
    apply Nat.div_small. exact Hlen. }
  destruct (handle_moving_value cfg data event clk Hm Hv) as (el & Hline & Hval).
  fold o in Hline, Hval.
  split; [exact Hz |].
  unfold logged_speed. rewrite Hline, Hval, Hz. simpl.
  split; [reflexivity |].
  unfold movement_of. change (int32 (0 * trigger_period_ms cfg)) with (int32 0).
  simpl. rewrite Z.mul_0_r. reflexivity.
Qed.

Lemma empty_curve_swallows_motion_witness :
  let o := zip_speed_curve_handle_event (with_curve_points [7] example_cfg)
             (fresh_data example_cfg) (rel_x 5) (at_ms 0) in
  (forall e, calculate_speed (with_curve_points [7] example_cfg) e = 0)
  /\ logged_speed o = Some 0
  /\ value (event_out o) = 0.
Proof.
  apply (empty_curve_swallows_motion (with_curve_points [7] example_cfg)
           (fresh_data example_cfg) (rel_x 5) (at_ms 0));
    [vm_compute; lia | reflexivity | discriminate].
Defined.

(** X4.  A trailing cell without a partner is ignored: a table with an even
    number of cells and the same table with one more cell give the same speed
    at every elapsed time, and the same outcome for every call. *)
Theorem unpaired_trailing_cell_is_ignored cfg pts extra :
  Nat.even (length pts) = true ->
  (forall e, calculate_speed (with_curve_points (pts ++ [extra]) cfg) e
             = calculate_speed (with_curve_points pts cfg) e)
  /\ (forall data event clk,
         zip_speed_curve_handle_event (with_curve_points (pts ++ [extra]) cfg)
           data event clk
         = zip_speed_curve_handle_event (with_curve_points pts cfg)
             data event clk).
Proof.
  intros Hev.
  apply Nat.even_spec in Hev. destruct Hev as [m Hm].
  assert (Hn1 : num_points (with_curve_points pts cfg) = m).
  { unfold num_points, curve_points_len, with_curve_points.
    cbn [curve_points]. rewrite Hm, Nat.mul_comm. apply Nat.div_mul. lia. }
  assert (Hn2 : num_points (with_curve_points (pts ++ [extra]) cfg) = m).
  { unfold num_points, curve_points_len, with_curve_points.
    cbn [curve_points]. rewrite length_app, Hm. cbn [length].
    symmetry. apply (Nat.div_unique _ 2 m 1); lia. }
  assert (Hs : forall e,
             calculate_speed (with_curve_points (pts ++ [extra]) cfg) e
             = calculate_speed (with_curve_points pts cfg) e).
  { intros e. apply calculate_speed_ext; [congruence |].
    intros k Hk. unfold curve_point. simpl. apply app_nth1. lia. }
  split; [exact Hs |].
  intros data event clk. apply handle_event_ext; try reflexivity. exact Hs.
Qed.

Lemma unpaired_trailing_cell_is_ignored_witness :
  calculate_speed
    (with_curve_points ([0; 50; 300; 200] ++ [1000]) example_cfg) 150
  = calculate_speed (with_curve_points [0; 50; 300; 200] example_cfg) 150.
Proof.
  apply (proj1 (unpaired_trailing_cell_is_ignored example_cfg
                  [0; 50; 300; 200] 1000 eq_refl) 150).
Defined.

(** X5.  The curve passes through its points: on a table with strictly
    increasing times whose arithmetic stays in range, the speed at the time of
    a point is the speed of that point. *)
Theorem curve_passes_through_its_points cfg i :
  strictly_increasing_times cfg = true -> arith_in_range cfg = true ->
  (i < num_points cfg)%nat ->
  calculate_speed cfg (time_at cfg i) = speed_of cfg i.
Proof. apply calculate_speed_at_point. Qed.

Lemma curve_passes_through_its_points_witness :
  calculate_speed example_cfg (time_at example_cfg 1) = speed_of example_cfg 1.
Proof.
  apply (curve_passes_through_its_points example_cfg 1);
    [reflexivity | reflexivity | vm_compute; lia].
Defined.

(** X6.  Interpolation never overshoots: on a table with at least one point
    whose arithmetic stays in range, sorted or not, every result lies between
    the speeds of two points of the table, hence inside any interval that
    holds all of the table's speeds. *)
Theorem interpolation_never_overshoots cfg lo hi e :
  arith_in_range cfg = true -> (1 <= num_points cfg)%nat ->
  (forall i, (i < num_points cfg)%nat -> lo <= speed_of cfg i <= hi) ->
  lo <= calculate_speed cfg e <= hi.
Proof.
  intros Hr Hn Hall.
  destruct (calculate_speed_between_points cfg e Hr Hn)
    as (i & k & Hi & Hk & Hb).
  pose proof (Hall i Hi). pose proof (Hall k Hk). lia.
Qed.

Lemma interpolation_never_overshoots_witness :
  10 <= calculate_speed unsorted_cfg 60 <= 40.
Proof.
  apply (interpolation_never_overshoots unsorted_cfg 10 40 60);
    [reflexivity | vm_compute; lia |].
  intros i Hi. change (num_points unsorted_cfg) with 4%nat in Hi.
  destruct i as [| [| [| [| i]]]]; [vm_compute; split; discriminate .. | lia].
Defined.

(** X7.  The handler uses the sign of the incoming value only: two matched
    events of the same type and code whose values have the same sign leave
    the same runtime data and are emitted with the same value, whatever the
    magnitudes. *)
Theorem incoming_magnitude_is_discarded cfg data e1 e2 clk :
  matched cfg e1 = true ->
  event_type e1 = event_type e2 -> code e1 = code e2 ->
  Z.sgn (value e1) = Z.sgn (value e2) ->
  let o1 := zip_speed_curve_handle_event cfg data e1 clk in
  let o2 := zip_speed_curve_handle_event cfg data e2 clk in
  data_out o1 = data_out o2
  /\ value (event_out o1) = value (event_out o2)
  /\ logged_elapsed o1 = logged_elapsed o2
  /\ logged_speed o1 = logged_speed o2.
Proof.
  intros Hm Ht Hc Hsg o1 o2. subst o1 o2.
  destruct e1 as [t1 c1 v1], e2 as [t2 c2 v2]. simpl in *. subst t2 c2.
  destruct (Z.eq_dec v1 0) as [E1 | E1].
  - assert (v2 = 0) by (subst v1; simpl in Hsg; lia). subst.
    repeat split; reflexivity.
  - assert (E2 : v2 <> 0) by lia.
    unfold matched in Hm. simpl in Hm.
    apply andb_true_iff in Hm. destruct Hm as [H1 H2].
    unfold logged_elapsed, logged_speed, speed_curve_line.
    unfold zip_speed_curve_handle_event. simpl.
    rewrite H1, H2. simpl.
    destruct (Z.eqb_spec v1 0) as [| _]; [contradiction |].
    destruct (Z.eqb_spec v2 0) as [| _]; [contradiction |].
    rewrite !current_direction_sgn, Hsg.
    set (changed := negb (last_direction (c1 =? 0) data =? 0)
                    && negb (last_direction (c1 =? 0) data =? Z.sgn v2)).
    destruct changed, (is_active data) eqn:Ha, (c1 =? 0) eqn:Hc;
      cbn -[calculate_speed int32 int64 Z.quot Z.mul Z.sgn];
      try rewrite Ha;
      cbn -[calculate_speed int32 int64 Z.quot Z.mul Z.sgn];
      repeat split; reflexivity.
Qed.

Lemma incoming_magnitude_is_discarded_witness :
  let o1 := zip_speed_curve_handle_event example_cfg
              (fresh_data example_cfg) (rel_x 1) (at_ms 10) in
  let o2 := zip_speed_curve_handle_event example_cfg
              (fresh_data example_cfg) (rel_x 900) (at_ms 10) in
  data_out o1 = data_out o2
  /\ value (event_out o1) = value (event_out o2)
  /\ logged_elapsed o1 = logged_elapsed o2
  /\ logged_speed o1 = logged_speed o2.
Proof.
  apply (incoming_magnitude_is_discarded example_cfg (fresh_data example_cfg)
           (rel_x 1) (rel_x 900) (at_ms 10)); reflexivity.
Defined.

(** X8.  Direction is kept and the magnitude is the speed scaled by the
    period: for a matched nonzero event whose speed is positive, with a
    period that is not negative and a product speed * period below 2^31, the
    emitted value is sign(value) * max(1, speed * period / 1000), so it has
    the sign of the incoming value. *)
Theorem emitted_value_formula cfg data event clk :
  matched cfg event = true -> value event <> 0 ->
  0 <= trigger_period_ms cfg ->
  let o := zip_speed_curve_handle_event cfg data event clk in
  exists elapsed speed,
    logged_elapsed o = Some elapsed /\ logged_speed o = Some speed
    /\ speed = calculate_speed cfg elapsed
    /\ (0 < speed -> speed * trigger_period_ms cfg < 2 ^ 31 ->
        value (event_out o)
        = Z.sgn (value event)
          * Z.max 1 (speed * trigger_period_ms cfg / 1000)
        /\ Z.sgn (value (event_out o)) = Z.sgn (value event)).
Proof.
  intros Hm Hv Hp o.
  destruct (handle_moving_value cfg data event clk Hm Hv) as (el & Hline & Hval).
  fold o in Hline, Hval.
  exists el, (calculate_speed cfg el).
  unfold logged_elapsed, logged_speed. rewrite Hline. simpl.
  split; [reflexivity |]. split; [reflexivity |]. split; [reflexivity |].
  intros Hpos Hrange.
  pose proof (movement_of_exact cfg (calculate_speed cfg el)
                ltac:(lia) Hp Hrange) as Hex.
  destruct (Z.eqb_spec (calculate_speed cfg el) 0) as [E | _]; [lia |].
  rewrite Hval, emitted_abs by lia. rewrite Hex.
  split; [reflexivity |].
  rewrite Z.sgn_mul, (Z.sgn_pos (Z.max 1 _)) by lia.
  rewrite Z.sgn_sgn. lia.
Qed.

Lemma emitted_value_formula_witness :
  let o := zip_speed_curve_handle_event example_cfg
             (set_start_time 0 (set_last_y_direction (-1)
                (set_is_active true (fresh_data example_cfg))))
             (rel_y (-2)) (at_ms 1000) in
  exists elapsed speed,
    logged_elapsed o = Some elapsed /\ logged_speed o = Some speed
    /\ speed = calculate_speed example_cfg elapsed
    /\ (0 < speed -> speed * trigger_period_ms example_cfg < 2 ^ 31 ->
        value (event_out o)
        = Z.sgn (value (rel_y (-2)))
          * Z.max 1 (speed * trigger_period_ms example_cfg / 1000)
        /\ Z.sgn (value (event_out o)) = Z.sgn (value (rel_y (-2)))).
Proof.
  apply (emitted_value_formula example_cfg
           (set_start_time 0 (set_last_y_direction (-1)
              (set_is_active true (fresh_data example_cfg))))
           (rel_y (-2)) (at_ms 1000));
    [reflexivity | discriminate | vm_compute; discriminate].
Defined.

(** One call keeps the timer consistent. *)
Lemma handle_keeps_consistent cfg d e clk :
  timer_consistent d ->
  timer_consistent (data_out (zip_speed_curve_handle_event cfg d e clk)).
Proof.
  intros (Hact & Hx & Hy).
  destruct (matched cfg e) eqn:Hm;
    [| rewrite handle_unmatched by exact Hm; repeat split; tauto].
  destruct (Z.eq_dec (value e) 0) as [Hv | Hv].
  - destruct (handle_stop cfg d e clk Hm Hv)
      as (_ & _ & _ & H1 & H2 & _ & H3).
    set (d' := data_out (zip_speed_curve_handle_event cfg d e clk)) in *.
    unfold timer_consistent, is_direction in *.
    destruct (is_x_axis e); simpl in H1, H2, H3; rewrite H1, H2, H3.
    + destruct (Z.eqb_spec (last_y_direction d) 0) as [E | E];
        intuition (try lia; try discriminate).
    + destruct (Z.eqb_spec (last_x_direction d) 0) as [E | E];
        intuition (try lia; try discriminate).
  - destruct (handle_moving cfg d e clk Hm Hv)
      as (_ & _ & Ha & _ & H1 & H2 & _).
    set (d' := data_out (zip_speed_curve_handle_event cfg d e clk)) in *.
    assert (Hs : Z.sgn (value e) = 1 \/ Z.sgn (value e) = -1) by lia.
    unfold timer_consistent, is_direction in *.
    destruct (is_x_axis e); simpl in H1, H2; rewrite H1, H2, Ha;
      intuition (try lia; try discriminate).
Qed.

(** X9.  The timer is on exactly while an axis is moving.  On a fresh
    instance, and after any stream of events from a state where this holds,
    [is_active] is false if and only if both last directions are 0, and both
    last directions are -1, 0 or 1. *)
Theorem timer_stays_consistent cfg :
  timer_consistent (fresh_data cfg)
  /\ forall evs d,
       timer_consistent d -> timer_consistent (fst (run cfg d evs)).
Proof.
  split.
  - unfold timer_consistent, is_direction. simpl. repeat split; auto.
  - induction evs as [| [e clk] rest IH]; intros d Hd; [exact Hd |].
    rewrite run_cons. simpl. apply IH, handle_keeps_consistent, Hd.
Qed.

Lemma timer_stays_consistent_witness :
  timer_consistent
    (fst (run example_cfg (fresh_data example_cfg)
            [(rel_x 5, at_ms 0); (rel_y (-5), at_ms 3); (rel_x 0, at_ms 9)])).
Proof.
  apply (proj2 (timer_stays_consistent example_cfg)).
  unfold timer_consistent, is_direction. simpl. repeat split; auto.
Defined.

(** A push in a direction the axis already has, with the timer on. *)
Lemma run_pushes_elapsed cfg x dir t0 rest :
  dir <> 0 ->
  Forall (pushes cfg x dir) rest ->
  forall d,
    is_active d = true -> start_time d = t0 -> last_direction x d = dir ->
    map logged_elapsed (snd (run cfg d rest))
    = map (fun p => Some (int64 (now_current (snd p) - t0))) rest.
Proof.
  intros Hdir. induction 1 as [| p rest Hp _ IH];
    intros d Ha Ht Hl; [reflexivity |].
  destruct p as [e clk]. destruct Hp as (Hm & Hx & Hs).
  simpl in Hm, Hx, Hs.
  assert (Hv : value e <> 0) by (intros E; rewrite E in Hs; simpl in Hs; lia).
  rewrite run_cons. cbn [snd map].
  destruct (handle_continue cfg d e clk Hm Hv Ha) as [Hline Hstart].
  { right. rewrite Hx, Hs. exact Hl. }
  destruct (handle_moving cfg d e clk Hm Hv)
    as (_ & _ & Ha' & _ & Hl' & _).
  rewrite Hx, Hs in Hl'.
  rewrite (IH _ Ha' (eq_trans Hstart Ht) Hl').
  unfold logged_elapsed at 1. rewrite Hline, Ht. reflexivity.
Qed.

(** X10.  A steady push accumulates time.  From a state with the timer off,
    over a stream of matched events that all move the same axis in the same
    direction, the elapsed time of every event is the distance from the
    start reading of the first call to the current reading of its own
    call. *)
Theorem steady_push_accumulates_time cfg x dir d e0 clk0 rest :
  dir <> 0 -> is_active d = false ->
  Forall (pushes cfg x dir) ((e0, clk0) :: rest) ->
  map logged_elapsed (snd (run cfg d ((e0, clk0) :: rest)))
  = map (fun p => Some (int64 (now_current (snd p) - now_start clk0)))
        ((e0, clk0) :: rest).
Proof.
  intros Hdir Hoff Hall.
  inversion Hall as [| p l Hp Hrest]; subst.
  destruct Hp as (Hm & Hx & Hs). simpl in Hm, Hx, Hs.
  assert (Hv : value e0 <> 0)
    by (intros E; rewrite E in Hs; simpl in Hs; lia).
  rewrite run_cons. cbn [snd map].
  destruct (handle_restart cfg d e0 clk0 Hm Hv (or_introl Hoff))
    as [Hline Hstart].
  destruct (handle_moving cfg d e0 clk0 Hm Hv)
    as (_ & _ & Ha' & _ & Hl' & _).
  rewrite Hx, Hs in Hl'.
  rewrite (run_pushes_elapsed cfg x dir
             (now_start clk0) rest Hdir Hrest _ Ha' Hstart Hl').
  unfold logged_elapsed at 1. rewrite Hline. reflexivity.
Qed.

Lemma steady_push_accumulates_time_witness :
  map logged_elapsed
    (snd (run example_cfg (fresh_data example_cfg)
            ((rel_x 5, at_ms 100)
             :: [(rel_x 7, at_ms 116); (rel_x 1, at_ms 132)])))
  = map (fun p => Some (int64 (now_current (snd p) - now_start (at_ms 100))))
        ((rel_x 5, at_ms 100)
         :: [(rel_x 7, at_ms 116); (rel_x 1, at_ms 132)]).
Proof.
  apply (steady_push_accumulates_time example_cfg true 1
           (fresh_data example_cfg) (rel_x 5) (at_ms 100)
           [(rel_x 7, at_ms 116); (rel_x 1, at_ms 132)]);
    [discriminate | reflexivity |].
  repeat constructor.
Defined.

(** X11.  The two axes share one clock, so a reversal on one axis restarts
    the ramp of the other: when a matched event reverses its axis and the next
    matched nonzero event continues the other axis in the direction that axis
    already has (or starts it), the second event is computed from the start
    reading of the reversing call, not from the start time the other axis had
    before. *)
Theorem reversal_restarts_the_other_axis cfg data ev1 clk1 ev2 clk2 :
  matched cfg ev1 = true -> value ev1 <> 0 ->
  last_direction (is_x_axis ev1) data <> 0 ->
  last_direction (is_x_axis ev1) data <> Z.sgn (value ev1) ->
  matched cfg ev2 = true -> value ev2 <> 0 ->
  is_x_axis ev2 = negb (is_x_axis ev1) ->
  last_direction (is_x_axis ev2) data = 0
  \/ last_direction (is_x_axis ev2) data = Z.sgn (value ev2) ->
  let d1 := data_out (zip_speed_curve_handle_event cfg data ev1 clk1) in
  let o2 := zip_speed_curve_handle_event cfg d1 ev2 clk2 in
  start_time d1 = now_start clk1
  /\ logged_elapsed o2 = Some (int64 (now_current clk2 - now_start clk1)).
Proof.
  intros Hm1 Hv1 H0 H1 Hm2 Hv2 Hax Hdir d1 o2.
  destruct (handle_restart cfg data ev1 clk1 Hm1 Hv1 (or_intror (conj H0 H1)))
    as [_ Hstart].
  destruct (handle_moving cfg data ev1 clk1 Hm1 Hv1)
    as (_ & _ & Ha & _ & _ & Hother & _).
  fold d1 in Hstart, Ha, Hother.
  rewrite <- Hax in Hother.
  destruct (handle_continue cfg d1 ev2 clk2 Hm2 Hv2 Ha) as [Hline _].
  { rewrite Hother. exact Hdir. }
  fold o2 in Hline.
  split; [exact Hstart |].
  unfold logged_elapsed. rewrite Hline, Hstart. reflexivity.
Qed.

Lemma reversal_restarts_the_other_axis_witness :
  let d := set_start_time 0
             (set_last_x_direction 1
                (set_last_y_direction 1
                   (set_is_active true (fresh_data example_cfg)))) in
  let d1 := data_out (zip_speed_curve_handle_event example_cfg d
                        (rel_x (-5)) (at_ms 900)) in
  let o2 := zip_speed_curve_handle_event example_cfg d1
              (rel_y 5) (at_ms 916) in
  start_time d1 = now_start (at_ms 900)
  /\ logged_elapsed o2
     = Some (int64 (now_current (at_ms 916) - now_start (at_ms 900))).
Proof.
  intros d.
  apply (reversal_restarts_the_other_axis example_cfg d
           (rel_x (-5)) (at_ms 900) (rel_y 5) (at_ms 916));
    [reflexivity | discriminate | discriminate | discriminate
    | reflexivity | discriminate | reflexivity | right; reflexivity].
Defined.

(** X12.  Every code other than 0 is the Y axis.  Two matched events with
    different nonzero codes share [last_y_direction]: after a push on one of
    these codes, an opposite push on the other is a direction change, which
    restarts the timing in its own call. *)
Theorem nonzero_codes_share_the_y_axis cfg data ev1 clk1 ev2 clk2 :
  matched cfg ev1 = true -> matched cfg ev2 = true ->
  code ev1 <> 0 -> code ev2 <> 0 ->
  value ev1 <> 0 -> value ev2 <> 0 ->
  Z.sgn (value ev2) <> Z.sgn (value ev1) ->
  let d1 := data_out (zip_speed_curve_handle_event cfg data ev1 clk1) in
  let o2 := zip_speed_curve_handle_event cfg d1 ev2 clk2 in
  last_y_direction d1 = Z.sgn (value ev1)
  /\ last_x_direction d1 = last_x_direction data
  /\ start_time (data_out o2) = now_start clk2
  /\ logged_elapsed o2 = Some (int64 (now_current clk2 - now_start clk2)).
Proof.
  intros Hm1 Hm2 Hc1 Hc2 Hv1 Hv2 Hopp d1 o2.
  assert (Hx1 : is_x_axis ev1 = false) by (apply Z.eqb_neq; exact Hc1).
  assert (Hx2 : is_x_axis ev2 = false) by (apply Z.eqb_neq; exact Hc2).
  destruct (handle_moving cfg data ev1 clk1 Hm1 Hv1)
    as (_ & _ & _ & _ & Hl & Hother & _).
  fold d1 in Hl, Hother. rewrite Hx1 in Hl, Hother. simpl in Hl, Hother.
  destruct (handle_restart cfg d1 ev2 clk2 Hm2 Hv2) as [Hline Hstart].
  { right. rewrite Hx2. simpl. rewrite Hl. split; [lia | congruence]. }
  fold o2 in Hline, Hstart.
  unfold logged_elapsed. rewrite Hline. simpl.
  repeat split; assumption || reflexivity.
Qed.

Lemma nonzero_codes_share_the_y_axis_witness :
  let cfg := with_codes [0; 1; 8] example_cfg in
  let d1 := data_out (zip_speed_curve_handle_event cfg (fresh_data cfg)
                        (rel_y 3) (at_ms 0)) in
  let o2 := zip_speed_curve_handle_event cfg d1
              {| event_type := 2; code := 8; value := -1 |} (at_ms 500) in
  last_y_direction d1 = Z.sgn (value (rel_y 3))
  /\ last_x_direction d1 = last_x_direction (fresh_data cfg)
  /\ start_time (data_out o2) = now_start (at_ms 500)
  /\ logged_elapsed o2
     = Some (int64 (now_current (at_ms 500) - now_start (at_ms 500))).
Proof.
  intros cfg.
  apply (nonzero_codes_share_the_y_axis cfg (fresh_data cfg)
           (rel_y 3) (at_ms 0)
           {| event_type := 2; code := 8; value := -1 |} (at_ms 500));
    try reflexivity; discriminate.
Defined.

(** X13.  The ramp never steps back.  On a table with strictly increasing
    times and non-decreasing speeds that are not negative, whose arithmetic
    stays in range, with a period that is not negative and
    last speed * period below 2^31: of two matched nonzero events, the one
    computed at the larger elapsed time is emitted with a magnitude that is
    not smaller. *)
Theorem ramp_never_steps_back cfg d1 ev1 clk1 d2 ev2 clk2 e1 e2 :
  strictly_increasing_times cfg = true ->
  non_decreasing_speeds cfg = true ->
  arith_in_range cfg = true ->
  (1 <= num_points cfg)%nat ->
  0 <= first_speed cfg ->
  0 <= trigger_period_ms cfg ->
  last_speed cfg * trigger_period_ms cfg < 2 ^ 31 ->
  matched cfg ev1 = true -> value ev1 <> 0 ->
  matched cfg ev2 = true -> value ev2 <> 0 ->
  let o1 := zip_speed_curve_handle_event cfg d1 ev1 clk1 in
  let o2 := zip_speed_curve_handle_event cfg d2 ev2 clk2 in
  logged_elapsed o1 = Some e1 -> logged_elapsed o2 = Some e2 ->
  e1 <= e2 ->
  Z.abs (value (event_out o1)) <= Z.abs (value (event_out o2)).
Proof.
  intros Hs Hmo Hr Hn Hf Hp Hl Hm1 Hv1 Hm2 Hv2 o1 o2 He1 He2 Hle.
  destruct (handle_moving_value cfg d1 ev1 clk1 Hm1 Hv1) as (x1 & L1 & V1).
  destruct (handle_moving_value cfg d2 ev2 clk2 Hm2 Hv2) as (x2 & L2 & V2).
  fold o1 in L1, V1. fold o2 in L2, V2.
  unfold logged_elapsed in He1, He2. rewrite L1 in He1. rewrite L2 in He2.
  simpl in He1, He2. injection He1 as ->. injection He2 as ->.
  destruct (calculate_speed_le cfg e1 e2 Hs Hmo Hr Hn Hle) as (B1 & B2 & B3).
  assert (R2 : calculate_speed cfg e2 * trigger_period_ms cfg < 2 ^ 31).
  { change (2 ^ 31) with 2147483648 in *. nia. }
  assert (R1 : calculate_speed cfg e1 * trigger_period_ms cfg < 2 ^ 31).
  { change (2 ^ 31) with 2147483648 in *. nia. }
  rewrite V1, V2.
  rewrite !emitted_abs by lia.
  pose proof (movement_of_range cfg (calculate_speed cfg e1)
                ltac:(lia) Hp R1) as M1.
  pose proof (movement_of_range cfg (calculate_speed cfg e2)
                ltac:(lia) Hp R2) as M2.
  pose proof (movement_of_mono cfg (calculate_speed cfg e1)
                (calculate_speed cfg e2) ltac:(lia) Hp R2) as Mle.
  assert (A1 : Z.abs (Z.sgn (value ev1)
                      * movement_of cfg (calculate_speed cfg e1))
               = movement_of cfg (calculate_speed cfg e1)).
  { assert (Z.sgn (value ev1) = 1 \/ Z.sgn (value ev1) = -1) as [S | S]
      by lia; rewrite S; lia. }
  assert (A2 : Z.abs (Z.sgn (value ev2)
                      * movement_of cfg (calculate_speed cfg e2))
               = movement_of cfg (calculate_speed cfg e2)).
  { assert (Z.sgn (value ev2) = 1 \/ Z.sgn (value ev2) = -1) as [S | S]
      by lia; rewrite S; lia. }
  lia.
Qed.

Lemma ramp_never_steps_back_witness :
  Z.abs (value (event_out (zip_speed_curve_handle_event example_cfg
                             (fresh_data example_cfg) (rel_x 5) (at_ms 0))))
  <= Z.abs (value (event_out
              (zip_speed_curve_handle_event example_cfg
                 (set_start_time 0 (set_last_y_direction (-1)
                    (set_is_active true (fresh_data example_cfg))))
                 (rel_y (-2)) (at_ms 700)))).
Proof.
  apply (ramp_never_steps_back example_cfg
           (fresh_data example_cfg) (rel_x 5) (at_ms 0)
           (set_start_time 0 (set_last_y_direction (-1)
              (set_is_active true (fresh_data example_cfg))))
           (rel_y (-2)) (at_ms 700) 0 700);
    try reflexivity; try discriminate; vm_compute; try lia; discriminate.
Defined.

(** X14.  The ramp saturates.  On a table with a point whose first time is
    below its last time (or whose first and last speeds agree), a matched
    nonzero event computed at or past the last point's time gets the last
    point's speed, and its emitted value depends on nothing but its sign. *)
Theorem ramp_saturates_at_last_point cfg data event clk e :
  (1 <= num_points cfg)%nat ->
  first_time cfg < last_time cfg \/ first_speed cfg = last_speed cfg ->
  matched cfg event = true -> value event <> 0 ->
  let o := zip_speed_curve_handle_event cfg data event clk in
  logged_elapsed o = Some e -> last_time cfg <= e ->
  logged_speed o = Some (last_speed cfg)
  /\ value (event_out o)
     = int32 (Z.sgn (value event) * movement_of cfg (last_speed cfg)).
Proof.
  intros Hn Hc Hm Hv o He Hlast.
  destruct (handle_moving_value cfg data event clk Hm Hv) as (x & L & V).
  fold o in L, V.
  unfold logged_elapsed in He. rewrite L in He. simpl in He.
  injection He as ->.
  assert (Hs : calculate_speed cfg e = last_speed cfg).
  { destruct (Z_le_gt_dec e (first_time cfg)) as [Hlo | Hlo].
    - rewrite calculate_speed_low by assumption.
      destruct Hc as [Hc | Hc]; [lia | exact Hc].
    - apply calculate_speed_high; [assumption | lia | assumption]. }
  unfold logged_speed. rewrite L, V, Hs. split; reflexivity.
Qed.

Lemma ramp_saturates_at_last_point_witness :
  let o := zip_speed_curve_handle_event example_cfg
             (set_start_time 0 (set_last_y_direction (-1)
                (set_is_active true (fresh_data example_cfg))))
             (rel_y (-2)) (at_ms 4000) in
  logged_speed o = Some (last_speed example_cfg)
  /\ value (event_out o)
     = int32 (Z.sgn (value (rel_y (-2)))
              * movement_of example_cfg (last_speed example_cfg)).
Proof.
  apply (ramp_saturates_at_last_point example_cfg
           (set_start_time 0 (set_last_y_direction (-1)
              (set_is_active true (fresh_data example_cfg))))
           (rel_y (-2)) (at_ms 4000) 4000);
    [vm_compute; lia | left; reflexivity | reflexivity | discriminate
    | reflexivity | vm_compute; discriminate].
Defined.

(** X15.  On a table with at least one point whose speeds are all positive
    and whose arithmetic stays in range, a matched event is emitted with
    value 0 exactly when it came in with value 0: motion is never dropped and
    a stop is never turned into motion. *)
Theorem zero_out_only_for_zero_in cfg data event clk :
  arith_in_range cfg = true -> (1 <= num_points cfg)%nat ->
  (forall i, (i < num_points cfg)%nat -> 1 <= speed_of cfg i) ->
  matched cfg event = true ->
  let o := zip_speed_curve_handle_event cfg data event clk in
  value (event_out o) = 0 <-> value event = 0.
Proof.
  intros Hr Hn Hpos Hm o.
  destruct (Z.eq_dec (value event) 0) as [Hv | Hv].
  - destruct (handle_stop cfg data event clk Hm Hv) as (_ & Hev & _).
    fold o in Hev. rewrite Hev. tauto.
  - destruct (handle_moving cfg data event clk Hm Hv)
      as (_ & _ & _ & _ & _ & _ & _ & _ & Hval).
    fold o in Hval.
    match type of Hval with
    | 0 < calculate_speed cfg ?e -> _ =>
        destruct (calculate_speed_between_points cfg e Hr Hn)
          as (i & _ & Hi & _ & Hb & _);
        pose proof (Hpos i Hi);
        specialize (Hval ltac:(lia))
    end.
    split; [intros E; rewrite E in Hval; simpl in Hval; lia | contradiction].
Qed.

Lemma zero_out_only_for_zero_in_witness :
  value (event_out (zip_speed_curve_handle_event example_cfg
                      (fresh_data example_cfg) (rel_x 5) (at_ms 0))) = 0
  <-> value (rel_x 5) = 0.
Proof.
  apply (zero_out_only_for_zero_in example_cfg (fresh_data example_cfg)
           (rel_x 5) (at_ms 0)); [reflexivity | vm_compute; lia | | reflexivity].
  intros i Hi. change (num_points example_cfg) with 3%nat in Hi.
  destruct i as [| [| [| i]]]; [vm_compute; discriminate .. | lia].
Defined.

(** X16.  After initialisation the first motion starts the ramp: whatever
    the runtime data held before [zip_speed_curve_init], after it and after
    any number of events that are filtered out or are stops, the first
    matched nonzero event restarts the timing in its own call; when the clock
    does not tick during that call it is computed at elapsed 0 and, on a
    table with a point whose first time is not negative, gets the first
    point's speed. *)
Theorem first_motion_after_init_starts_ramp cfg data mid event clk :
  Forall (quiet cfg) mid ->
  matched cfg event = true -> value event <> 0 ->
  let d0 := snd (zip_speed_curve_init cfg data) in
  let o := zip_speed_curve_handle_event cfg (fst (run cfg d0 mid)) event clk in
  start_time (data_out o) = now_start clk
  /\ logged_elapsed o = Some (int64 (now_current clk - now_start clk))
  /\ (now_current clk = now_start clk ->
      (1 <= num_points cfg)%nat -> 0 <= first_time cfg ->
      logged_elapsed o = Some 0 /\ logged_speed o = Some (first_speed cfg)).
Proof.
  intros Hmid Hm Hv d0 o.
  assert (Hrest : at_rest d0) by (repeat split; reflexivity).
  pose proof (run_quiet_keeps_rest cfg mid Hmid d0 Hrest) as (Ha & _ & _).
  destruct (handle_restart cfg (fst (run cfg d0 mid)) event clk Hm Hv
              (or_introl Ha)) as [Hline Hstart].
  fold o in Hline, Hstart.
  unfold logged_elapsed, logged_speed. rewrite Hline. simpl.
  split; [exact Hstart |]. split; [reflexivity |].
  intros Hclk Hn Ht. rewrite Hclk, Z.sub_diag, int64_zero.
  rewrite calculate_speed_at_zero by assumption. split; reflexivity.
Qed.

Lemma first_motion_after_init_starts_ramp_witness :
  let d0 := snd (zip_speed_curve_init example_cfg
                   (set_start_time 77 (set_last_x_direction (-1)
                      (set_is_active true zero_data)))) in
  let o := zip_speed_curve_handle_event example_cfg
             (fst (run example_cfg d0 [(rel_y 0, at_ms 5)]))
             (rel_x 5) (at_ms 2000) in
  logged_elapsed o = Some 0 /\ logged_speed o = Some (first_speed example_cfg).
Proof.
  intros d0 o.
  destruct (first_motion_after_init_starts_ramp example_cfg
              (set_start_time 77 (set_last_x_direction (-1)
                 (set_is_active true zero_data)))
              [(rel_y 0, at_ms 5)] (rel_x 5) (at_ms 2000))
    as (_ & _ & H).
  - constructor; [right; reflexivity | constructor].
  - reflexivity.
  - discriminate.
  - apply H; [reflexivity | vm_compute; lia | discriminate].
Defined.

(** One call under a clock that does not go back. *)
Lemma handle_elapsed_nonneg cfg d e clk t :
  0 <= t -> started_by t d ->
  t <= now_start clk -> now_start clk <= now_current clk ->
  now_current clk < 2 ^ 63 ->
  let o := zip_speed_curve_handle_event cfg d e clk in
  started_by (now_current clk) (data_out o)
  /\ forall el, logged_elapsed o = Some el ->
                0 <= el <= now_current clk.
Proof.
  intros Ht Hd H1 H2 H3 o. unfold started_by in *.
  change (2 ^ 63) with 9223372036854775808 in H3.
  destruct (matched cfg e) eqn:Hm.
  - destruct (Z.eq_dec (value e) 0) as [Hv | Hv].
    + destruct (handle_stop cfg d e clk Hm Hv)
        as (_ & _ & Hline & _ & _ & Hstart & Hact).
      fold o in Hline, Hstart, Hact.
      split.
      * intros Ha. rewrite Hstart. rewrite Hact in Ha.
        destruct (last_direction (negb (is_x_axis e)) d =? 0);
          [discriminate | specialize (Hd Ha); lia].
      * intros el Hel. unfold logged_elapsed in Hel. rewrite Hline in Hel.
        discriminate.
    + destruct (handle_moving cfg d e clk Hm Hv)
        as (_ & Hline & _ & Hstart & _).
      fold o in Hline, Hstart.
      set (c := negb (last_direction (is_x_axis e) d =? 0)
                && negb (last_direction (is_x_axis e) d
                         =? Z.sgn (value e))
                || negb (is_active d)) in *.
      assert (Hs : 0 <= (if c then now_start clk else start_time d)
                   <= now_current clk).
      { destruct c eqn:Hc; [lia |].
        apply orb_false_iff in Hc. destruct Hc as [_ Hc].
        apply negb_false_iff in Hc. specialize (Hd Hc). lia. }
      split.
      * intros _. rewrite Hstart. exact Hs.
      * intros el Hel. unfold logged_elapsed in Hel. rewrite Hline in Hel.
        simpl in Hel. injection Hel as <-.
        rewrite int64_id
          by (unfold in_int64; change (2 ^ 63) with 9223372036854775808; lia).
        lia.
  - subst o. rewrite handle_unmatched by exact Hm. simpl. split.
    + intros Ha. specialize (Hd Ha). lia.
    + intros el Hel. discriminate.
Qed.

(** X17.  Elapsed times are never negative under a clock that does not go
    back.  From a state whose running timer (if any) was started between 0
    and [t], over a stream whose clock readings start at [t] or later and
    never decrease, every elapsed time the handler computes lies between 0
    and the current reading of its call, so no 64-bit wrap-around occurs. *)
Theorem elapsed_is_never_negative cfg evs :
  forall t d,
    0 <= t -> started_by t d -> monotone_clock t evs ->
    Forall (fun o => forall el, logged_elapsed o = Some el -> 0 <= el)
           (snd (run cfg d evs)).
Proof.
  induction evs as [| [e clk] rest IH]; intros t d Ht Hd Hclk.
  - constructor.
  - destruct Hclk as (H1 & H2 & H3 & Hrest).
    rewrite run_cons. cbn [snd].
    destruct (handle_elapsed_nonneg cfg d e clk t Ht Hd H1 H2 H3)
      as [Hd' Hel].
    constructor.
    + intros el E. apply (Hel el E).
    + apply (IH (now_current clk)); [lia | exact Hd' | exact Hrest].
Qed.

Lemma elapsed_is_never_negative_witness :
  Forall (fun o => forall el, logged_elapsed o = Some el -> 0 <= el)
         (snd (run example_cfg (fresh_data example_cfg)
                 [(rel_x 5, {| now_start := 3; now_current := 4 |});
                  (rel_x (-5), at_ms 20)])).
Proof.
  apply (elapsed_is_never_negative example_cfg
           [(rel_x 5, {| now_start := 3; now_current := 4 |});
            (rel_x (-5), at_ms 20)] 0 (fresh_data example_cfg)).
  - lia.
  - intros H. discriminate H.
  - simpl. repeat split; try lia; reflexivity.
Defined.
